(** * Feathercoin proof of work: [GetNextWorkRequired] and [CheckProofOfWork]

    A shallow embedding of [src/pow.cpp] and the properties of the difficulty
    retargeter and of the proof-of-work validator.

    C++ integers are integers of [Z] with the wrap-around of their width
    written out at every place where the source stores into, or computes in,
    a fixed-width type.  Pointers to chain nodes are [option CBlockIndex]
    ([None] is [nullptr]).  A call that stops with a failed [assert], a
    division by zero, a read through a null pointer or a [uint_error] is an
    [Abort] of the [outcome] monad. *)

From Stdlib Require Import ZArith Lia Bool List.
Import ListNotations.

Local Open Scope Z_scope.

(** ** Fixed-width integers *)

Module Int.

(** Value of a two's complement or unsigned conversion to [w] bits. *)
Definition unsigned (w : Z) (z : Z) : Z := z mod 2 ^ w.
Definition signed (w : Z) (z : Z) : Z := (z + 2 ^ (w - 1)) mod 2 ^ w - 2 ^ (w - 1).

(** [int], [int64_t], [uint32_t], [uint64_t] and the 256 bits of
    [arith_uint256]. *)
Definition i32 := signed 32.
Definition i64 := signed 64.
Definition u32 := unsigned 32.
Definition u64 := unsigned 64.
Definition u256 := unsigned 256.

Definition int_range (z : Z) : Prop := - 2 ^ 31 <= z < 2 ^ 31.
Definition int64_range (z : Z) : Prop := - 2 ^ 63 <= z < 2 ^ 63.
Definition uint32_range (z : Z) : Prop := 0 <= z < 2 ^ 32.
Definition uint256_range (z : Z) : Prop := 0 <= z < 2 ^ 256.

End Int.
Import Int.

(** ** Outcomes of a call *)

Inductive failure : Type :=
| AssertionFailed     (* a failed [assert] *)
| DivisionByZero      (* [/] or [%] of built-in integers by zero *)
| NullDereference     (* a member read through [nullptr] *)
| UintError           (* [uint_error] thrown by [arith_uint256] *)
| DivisionOverflow.   (* [INT_MIN / -1]: the quotient does not fit, the division traps *)

Inductive outcome (A : Type) : Type :=
| Ok (a : A)
| Abort (f : failure).
Arguments Ok {A} a.
Arguments Abort {A} f.

Definition bind {A B : Type} (m : outcome A) (k : A -> outcome B) : outcome B :=
  match m with
  | Ok a => k a
  | Abort f => Abort f
  end.

Notation "x <- m ;; k" := (bind m (fun x => k))
  (at level 61, m at next level, right associativity).

Definition assert (b : bool) : outcome unit :=
  if b then Ok tt else Abort AssertionFailed.

(** [assert(p)] on a pointer, giving the node it points to. *)
Definition assert_ptr {A : Type} (p : option A) : outcome A :=
  match p with
  | Some a => Ok a
  | None => Abort AssertionFailed
  end.

(** [p->member] on a pointer. *)
Definition deref {A : Type} (p : option A) : outcome A :=
  match p with
  | Some a => Ok a
  | None => Abort NullDereference
  end.

(** [a / b] on [int]: truncating division.  It traps on a zero divisor and
    on [INT_MIN / -1], whose quotient is not an [int]. *)
Definition div_int (a b : Z) : outcome Z :=
  if b =? 0 then Abort DivisionByZero
  else if (a =? - 2 ^ 31) && (b =? -1) then Abort DivisionOverflow
  else Ok (i32 (a ÷ b)).

(** [a % b] on [int64_t]: remainder of the truncating division. *)
Definition rem_int64 (a b : Z) : outcome Z :=
  if b =? 0 then Abort DivisionByZero else Ok (Z.rem a b).

(** ** The 256-bit unsigned integers of [arith_uint256.h] *)

Module Arith256.

(** Modelled from the spec: [arith_uint256::bits()], the bit-length of a
    256-bit magnitude (position of the highest set bit plus one, 0 for 0),
    declared in [arith_uint256.h], which is not part of the sources. *)
Definition bits (x : Z) : Z := if x =? 0 then 0 else Z.log2 x + 1.

(** Modelled from the spec: [GetLow64()], the low 64 bits. *)
Definition GetLow64 (x : Z) : Z := u64 x.

(** Modelled from the spec: [operator>>=] and [operator<<=] on 256 bits;
    bits shifted out at the top are lost. *)
Definition shr (x n : Z) : Z := Z.shiftr x n.
Definition shl (x n : Z) : Z := u256 (Z.shiftl x n).

(** Modelled from the spec: [operator*=(uint32_t)], the product modulo
    [2^256]. *)
Definition mul32 (x b32 : Z) : Z := u256 (x * b32).

(** Modelled from the spec: [operator/=(const base_uint&)], which throws
    [uint_error] on a zero divisor. *)
Definition div (x d : Z) : outcome Z :=
  if d =? 0 then Abort UintError else Ok (x / d).

(** Modelled from the spec: the decoder of the compact form
    ([arith_uint256::SetCompact]): one byte of exponent [nSize] (base 256)
    over a 23-bit mantissa [nWord] and its sign bit [0x00800000].  It gives
    the magnitude and the flags [fNegative] and [fOverflow]. *)
Definition SetCompact (nCompact : Z) : Z * bool * bool :=
  let nSize := Z.shiftr nCompact 24 in
  let nWord := Z.land nCompact 0x007fffff in
  let nWord := if nSize <=? 3 then Z.shiftr nWord (8 * (3 - nSize)) else nWord in
  let value := if nSize <=? 3 then nWord else shl nWord (8 * (nSize - 3)) in
  let fNegative := negb (nWord =? 0) && negb (Z.land nCompact 0x00800000 =? 0) in
  let fOverflow := negb (nWord =? 0) &&
                   ((nSize >? 34) ||
                    ((nWord >? 0xff) && (nSize >? 33)) ||
                    ((nWord >? 0xffff) && (nSize >? 32))) in
  (value, fNegative, fOverflow).

(** The magnitude alone, as [bn.SetCompact(nBits)] without flag pointers. *)
Definition compact_value (nCompact : Z) : Z := fst (fst (SetCompact nCompact)).

(** Modelled from the spec: the encoder of the compact form
    ([arith_uint256::GetCompact()], never negative here): the three most
    significant bytes of the magnitude, truncated, with the byte length as
    exponent; a mantissa that would set the sign bit is divided by 256 and
    the exponent incremented. *)
Definition GetCompact (x : Z) : Z :=
  let nSize := (bits x + 7) / 8 in
  let nCompact :=
    if nSize <=? 3 then u32 (Z.shiftl (GetLow64 x) (8 * (3 - nSize)))
    else u32 (GetLow64 (shr x (8 * (nSize - 3)))) in
  let shifted := negb (Z.land nCompact 0x00800000 =? 0) in
  let nSize := if shifted then nSize + 1 else nSize in
  let nCompact := if shifted then Z.shiftr nCompact 8 else nCompact in
  Z.lor nCompact (Z.shiftl nSize 24).

End Arith256.
Import Arith256.

(** Modelled from the spec: [UintToArith256], the 256-bit magnitude of a
    [uint256] blob ([uint256.h] and [arith_uint256.h] are not part of the
    sources); a [uint256] is given by its magnitude. *)
Definition UintToArith256 (a : Z) : Z := u256 a.

(** ** Chain state and consensus parameters *)

Module Consensus.

(** The fields of [Consensus::Params] that [pow.cpp] reads.  [powLimit] is
    a [uint256]; the two targets of the timing are [int64_t], the fork
    heights [int]. *)
Record Params : Type := {
  powLimit : Z;
  nPowTargetTimespan : Z;
  nPowTargetSpacing : Z;
  fPowAllowMinDifficultyBlocks : bool;
  fPowNoRetargeting : bool;
  nForkOne : Z;
  nForkTwo : Z
}.

End Consensus.
Import Consensus.

Module CBlockHeader.

(** The candidate header: only its time ([uint32_t nTime]) is read. *)
Record t : Type := { nTime : Z }.

Definition GetBlockTime (b : t) : Z := nTime b.

End CBlockHeader.

Module CBlockIndex.

(** A node of the block index: [int nHeight], [uint32_t nTime],
    [uint32_t nBits] and the pointer [pprev] to its predecessor
    ([None] at the genesis block). *)
#[warnings="-register-all"] Inductive t : Type := Build {
  nHeight : Z;
  nTime : Z;
  nBits : Z;
  pprev : option t
}.

Definition GetBlockTime (p : t) : Z := nTime p.

(** [for (i = 0; p && i < n; i++) p = p->pprev]: at most [n] steps along
    [pprev], stopping at a null pointer. *)
Fixpoint walk (n : nat) (p : option t) : option t :=
  match n, p with
  | S n', Some q => walk n' (pprev q)
  | _, _ => p
  end.

(** Modelled from the spec: [GetAncestor(height)], declared in [chain.h],
    which is not part of the sources: null when [height] is negative or
    above the node's height, else the node [nHeight - height] steps back
    along the predecessor references. *)
Definition GetAncestor (p : t) (height : Z) : option t :=
  if (height >? nHeight p) || (height <? 0) then None
  else walk (Z.to_nat (nHeight p - height)) (Some p).

(** The node and all its predecessors, the node first. *)
Fixpoint chain (p : t) : list t :=
  p :: match pprev p with
       | Some q => chain q
       | None => []
       end.

(** A chain of [n + 1] blocks from the genesis block at time [t0], one
    block every [dt] seconds, all with the same [bits]; its tip is at
    height [n]. *)
Fixpoint regular (n : nat) (t0 dt bits : Z) : t :=
  match n with
  | O => Build 0 t0 bits None
  | S m => Build (Z.of_nat n) (t0 + dt * Z.of_nat n) bits (Some (regular m t0 dt bits))
  end.

End CBlockIndex.

Import CBlockIndex (nHeight, nBits, pprev).

(** ** [GetNextWorkRequired] *)

(** The height of the block being built, [pindexLast->nHeight + 1]. *)
Definition nextHeight (pindexLast : CBlockIndex.t) : Z :=
  i32 (nHeight pindexLast + 1).

(** The local [nTargetTimespan] after the two fork overrides. *)
Definition nTargetTimespan (params : Params) (nHeight : Z) : Z :=
  let nTargetTimespan := i32 (nPowTargetTimespan params) in
  let nTargetTimespan :=
    if nHeight >=? nForkOne params then (7 * 24 * 60 * 60) ÷ 8 else nTargetTimespan in
  let nTargetTimespan :=
    if nHeight >=? nForkTwo params then (7 * 24 * 60 * 60) ÷ 32 else nTargetTimespan in
  nTargetTimespan.

Definition nTargetSpacing (params : Params) : Z := i32 (nPowTargetSpacing params).

(** [nInterval = nTargetTimespan / nTargetSpacing]. *)
Definition nInterval (params : Params) (nHeight : Z) : outcome Z :=
  div_int (nTargetTimespan params nHeight) (nTargetSpacing params).

Definition fHardFork (params : Params) (nHeight : Z) : bool :=
  (nHeight =? nForkOne params) || (nHeight =? nForkTwo params).

(** The loop of the testnet rule: back to the last block that is not a
    special-min-difficulty-rules block.  [nInterval] is not zero here. *)
Fixpoint last_non_special (pindex : CBlockIndex.t) (nInterval nProofOfWorkLimit : Z)
  : CBlockIndex.t :=
  match pprev pindex with
  | Some prev =>
      if negb (Z.rem (nHeight pindex) nInterval =? 0) && (nBits pindex =? nProofOfWorkLimit)
      then last_non_special prev nInterval nProofOfWorkLimit
      else pindex
  | None => pindex
  end.

(** The body of [if ((pindexLast->nHeight+1) % nInterval != 0 && !fHardFork)]:
    the difficulty does not change at this height. *)
Definition keep_difficulty (pindexLast : CBlockIndex.t) (pblock : CBlockHeader.t)
    (params : Params) (nInterval nProofOfWorkLimit : Z) : outcome Z :=
  if fPowAllowMinDifficultyBlocks params then
    if CBlockHeader.GetBlockTime pblock >?
       i64 (CBlockIndex.GetBlockTime pindexLast + i64 (nPowTargetSpacing params * 2))
    then Ok nProofOfWorkLimit
    else Ok (nBits (last_non_special pindexLast nInterval nProofOfWorkLimit))
  else Ok (nBits pindexLast).

(** The measured timespan before it is limited: the short window and, from
    the second fork on, its average with the long window, damped. *)
Definition measured_timespan (pindexLast pindexFirst : CBlockIndex.t) (params : Params)
    (nHeight nTargetTimespan nInterval : Z) : outcome Z :=
  let nActualTimespan :=
    CBlockIndex.GetBlockTime pindexLast - CBlockIndex.GetBlockTime pindexFirst in
  if nHeight >=? nForkTwo params then
    let nInterval := nInterval * 4 in
    pindexFirst <- deref (CBlockIndex.walk (Z.to_nat nInterval) (Some pindexLast));;
    let nActualTimespanLong :=
      i32 ((CBlockIndex.GetBlockTime pindexLast - CBlockIndex.GetBlockTime pindexFirst) ÷ 4) in
    let nActualTimespanAvg := i32 ((nActualTimespan + nActualTimespanLong) ÷ 2) in
    let nActualTimespan := i32 (nActualTimespanAvg + i32 (3 * nTargetTimespan)) in
    Ok (nActualTimespan ÷ 4)
  else Ok nActualTimespan.

(** The bounds [(nActualTimespanMin, nActualTimespanMax)] of the height's
    fork regime. *)
Definition timespan_limits (params : Params) (nHeight nTargetTimespan : Z) : Z * Z :=
  let nActualTimespanMax := i32 (nTargetTimespan * 4) in
  let nActualTimespanMin := nTargetTimespan ÷ 4 in
  let '(nActualTimespanMin, nActualTimespanMax) :=
    if (nHeight >=? nForkOne params) && (nHeight <? nForkTwo params)
    then (i32 (nTargetTimespan * 70) ÷ 99, i32 (nTargetTimespan * 99) ÷ 70)
    else (nActualTimespanMin, nActualTimespanMax) in
  let '(nActualTimespanMin, nActualTimespanMax) :=
    if nHeight >=? nForkTwo params
    then (i32 (nTargetTimespan * 453) ÷ 494, i32 (nTargetTimespan * 494) ÷ 453)
    else (nActualTimespanMin, nActualTimespanMax) in
  (nActualTimespanMin, nActualTimespanMax).

(** "Limit adjustment step". *)
Definition limit_timespan (params : Params) (nHeight nTargetTimespan nActualTimespan : Z) : Z :=
  let '(nActualTimespanMin, nActualTimespanMax) :=
    timespan_limits params nHeight nTargetTimespan in
  let nActualTimespan :=
    if nActualTimespan <? nActualTimespanMin then nActualTimespanMin else nActualTimespan in
  let nActualTimespan :=
    if nActualTimespan >? nActualTimespanMax then nActualTimespanMax else nActualTimespan in
  nActualTimespan.

(** [bnNew.bits() > bnPowLimit.bits() - 1], on [unsigned int]. *)
Definition fShift (params : Params) (bnNew : Z) : bool :=
  bits bnNew >? u32 (bits (UintToArith256 (powLimit params)) - 1).

(** "Retarget": the previous target rescaled by
    [nActualTimespan / nTargetTimespan], at most [powLimit], in compact form.
    [bnNew *= nActualTimespan] is the multiplication by a [uint32_t], and
    the divisor of [bnNew /= nTargetTimespan] the [int] as [uint64_t]. *)
Definition Retarget (params : Params) (nBits nActualTimespan nTargetTimespan : Z)
  : outcome Z :=
  let bnNew := compact_value nBits in
  let bnPowLimit := UintToArith256 (powLimit params) in
  let fShift := fShift params bnNew in
  let bnNew := if fShift then shr bnNew 1 else bnNew in
  let bnNew := mul32 bnNew (u32 nActualTimespan) in
  bnNew <- div bnNew (u64 nTargetTimespan);;
  let bnNew := if fShift then shl bnNew 1 else bnNew in
  let bnNew := if bnNew >? bnPowLimit then bnPowLimit else bnNew in
  Ok (GetCompact bnNew).

(** The rest of the function, after the test of the adjustment interval. *)
Definition retarget (pindexLast : CBlockIndex.t) (params : Params)
    (nHeight nTargetTimespan nInterval : Z) : outcome Z :=
  let nHeightFirst := i32 (CBlockIndex.nHeight pindexLast - (nInterval - 1)) in
  _ <- assert (nHeightFirst >=? 0);;
  pindexFirst <- assert_ptr (CBlockIndex.GetAncestor pindexLast nHeightFirst);;
  if fPowNoRetargeting params then Ok (nBits pindexLast)
  else
    nActualTimespan <-
      measured_timespan pindexLast pindexFirst params nHeight nTargetTimespan nInterval;;
    let nActualTimespan := limit_timespan params nHeight nTargetTimespan nActualTimespan in
    Retarget params (nBits pindexLast) nActualTimespan nTargetTimespan.

Definition GetNextWorkRequired (pindexLast : option CBlockIndex.t) (pblock : CBlockHeader.t)
    (params : Params) : outcome Z :=
  pindexLast <- assert_ptr pindexLast;;
  let nProofOfWorkLimit := GetCompact (UintToArith256 (powLimit params)) in
  let nHeight := nextHeight pindexLast in
  let nTargetTimespan := nTargetTimespan params nHeight in
  nInterval <- nInterval params nHeight;;
  let fHardFork := fHardFork params nHeight in
  r <- rem_int64 nHeight nInterval;;
  if negb (r =? 0) && negb fHardFork
  then keep_difficulty pindexLast pblock params nInterval nProofOfWorkLimit
  else retarget pindexLast params nHeight nTargetTimespan nInterval.

(** ** [CheckProofOfWork] *)

Definition CheckProofOfWork (hash nBits : Z) (params : Params) : bool :=
  let '(bnTarget, fNegative, fOverflow) := SetCompact nBits in
  if fNegative || (bnTarget =? 0) || fOverflow ||
     (bnTarget >? UintToArith256 (powLimit params))
  then false
  else if UintToArith256 hash >? bnTarget then false
  else true.

(** ** Concrete parameters and chains

    Small networks on which the calls can be followed by hand: the target
    timespans are chosen so that an adjustment interval is four blocks. *)

Module Examples.

(** Parameters of the size of a main network: [powLimit = 2^236 - 1], in
    compact form [0x1e0fffff], a target timespan of three and a half days
    and a block every two and a half minutes. *)
Definition main_params : Params := {|
  powLimit := 2 ^ 236 - 1;
  nPowTargetTimespan := 302400;
  nPowTargetSpacing := 150;
  fPowAllowMinDifficultyBlocks := false;
  fPowNoRetargeting := false;
  nForkOne := 33000;
  nForkTwo := 87948
|}.

(** The same [powLimit]; an interval of [600 / 150 = 4] blocks; both forks
    far away. *)
Definition quiet_params : Params := {|
  powLimit := 2 ^ 236 - 1;
  nPowTargetTimespan := 600;
  nPowTargetSpacing := 150;
  fPowAllowMinDifficultyBlocks := false;
  fPowNoRetargeting := false;
  nForkOne := 1000;
  nForkTwo := 2000
|}.

(** The same network with the testnet rule. *)
Definition testnet_params : Params := {|
  powLimit := 2 ^ 236 - 1;
  nPowTargetTimespan := 600;
  nPowTargetSpacing := 150;
  fPowAllowMinDifficultyBlocks := true;
  fPowNoRetargeting := false;
  nForkOne := 1000;
  nForkTwo := 2000
|}.


(** Both forks passed at height 8; after the second the interval is
    [18900 / 4725 = 4] blocks and the long window 16 blocks. *)
Definition fork_two_params : Params := {|
  powLimit := 2 ^ 236 - 1;
  nPowTargetTimespan := 75600;
  nPowTargetSpacing := 4725;
  fPowAllowMinDifficultyBlocks := false;
  fPowNoRetargeting := false;
  nForkOne := 4;
  nForkTwo := 8
|}.

(** A candidate header at time [time]. *)
Definition candidate (time : Z) : CBlockHeader.t := {| CBlockHeader.nTime := time |}.

(** Two blocks: a genesis block whose bits [0x1f00ffff] decode to
    [0xffff * 2^224], above [powLimit], and a min-difficulty block on it. *)
Definition easy_genesis : CBlockIndex.t := CBlockIndex.Build 0 0 0x1f00ffff None.
Definition min_difficulty_tip : CBlockIndex.t :=
  CBlockIndex.Build 1 150 0x1e0fffff (Some easy_genesis).

End Examples.
Import Examples.

(** Closed goals are settled by evaluation. *)
Ltac by_computation := vm_compute; repeat split; first [reflexivity | discriminate].

(** ** The rescaling as the specification words it

    [T] is right-shifted by 1 before the multiplication and the result
    left-shifted by 1 after the division exactly when the bit-length of [T]
    exceeds the bit-length of [powLimit] minus one; otherwise
    [T' = T * actualTimespan / effectiveTimespan]; "unsigned
    arbitrary-precision arithmetic (no silent wraparound)"; "if
    [T' > powLimit], clamp to [powLimit]". *)
Definition spec_rescale (T limit actualTimespan effectiveTimespan : Z) : Z :=
  let T' :=
    if bits T >? bits limit - 1
    then Z.shiftl (Z.shiftr T 1 * actualTimespan / effectiveTimespan) 1
    else T * actualTimespan / effectiveTimespan in
  if T' >? limit then limit else T'.

(** ** Well-formed chains

    The invariant of the block index that [pow.cpp] relies on: the genesis
    block has height 0 and every other block stands one above its
    predecessor. *)
Fixpoint well_formed_chain (p : CBlockIndex.t) : Prop :=
  match pprev p with
  | Some q => nHeight p = nHeight q + 1 /\ well_formed_chain q
  | None => nHeight p = 0
  end.

(** The quiet network with retargeting switched off. *)
Definition frozen_params : Params := {|
  powLimit := 2 ^ 236 - 1;
  nPowTargetTimespan := 600;
  nPowTargetSpacing := 150;
  fPowAllowMinDifficultyBlocks := false;
  fPowNoRetargeting := true;
  nForkOne := 1000;
  nForkTwo := 2000
|}.

(** The first fork at height 2, below the interval of four blocks. *)
Definition early_fork_params : Params := {|
  powLimit := 2 ^ 236 - 1;
  nPowTargetTimespan := 75600;
  nPowTargetSpacing := 18900;
  fPowAllowMinDifficultyBlocks := false;
  fPowNoRetargeting := true;
  nForkOne := 2;
  nForkTwo := 2000
|}.

(** ** The rescaling on 256 bits

    The rescaling with the width written out: the shift exactly when the
    bit-length of [T] exceeds the bit-length of [powLimit] minus one, the
    product and the left shift modulo [2^256], the result cut at
    [powLimit]. *)
Definition rescale_mod_2_256 (T limit actualTimespan effectiveTimespan : Z) : Z :=
  let shifted := bits T >? bits limit - 1 in
  let x := if shifted then Z.shiftr T 1 else T in
  let q := (x * actualTimespan) mod 2 ^ 256 / effectiveTimespan in
  let T' := if shifted then Z.shiftl q 1 mod 2 ^ 256 else q in
  if T' >? limit then limit else T'.

(** Twenty blocks, heights 0 to 19, all at time 0 but the last, whose time
    is 4000000000. *)
Definition late_tip_chain : CBlockIndex.t :=
  CBlockIndex.Build 19 4000000000 0x1e0ffff0 (Some (CBlockIndex.regular 18 0 0 0x1e0ffff0)).

(** The quiet network with [powLimit = 2^255 - 1]. *)
Definition wide_params : Params := {|
  powLimit := 2 ^ 255 - 1;
  nPowTargetTimespan := 600;
  nPowTargetSpacing := 150;
  fPowAllowMinDifficultyBlocks := false;
  fPowNoRetargeting := false;
  nForkOne := 1000;
  nForkTwo := 2000
|}.

(** Both forks passed at height 8, and a spacing above the 18900 seconds of
    the timespan after the second fork. *)
Definition slow_params : Params := {|
  powLimit := 2 ^ 236 - 1;
  nPowTargetTimespan := 75600;
  nPowTargetSpacing := 20000;
  fPowAllowMinDifficultyBlocks := false;
  fPowNoRetargeting := false;
  nForkOne := 4;
  nForkTwo := 8
|}.

(** The mantissa [GetCompact] extracts before the sign adjustment. *)
Definition mantissa24 (x : Z) : Z :=
  let n := (bits x + 7) / 8 in
  if n <=? 3 then x * 2 ^ (8 * (3 - n)) else x / 2 ^ (8 * (n - 3)).


(** ** Cast and codec lemmas *)

Lemma i32_id z : int_range z -> i32 z = z.
Proof.
  unfold int_range, i32, signed. intros H.
  change (2 ^ (32 - 1)) with 2147483648 in *. change (2 ^ 32) with 4294967296.
  change (2 ^ 31) with 2147483648 in *.
  rewrite Z.mod_small; lia.
Qed.

Lemma i64_id z : int64_range z -> i64 z = z.
Proof.
  unfold int64_range, i64, signed. intros H.
  change (2 ^ (64 - 1)) with 9223372036854775808 in *.
  change (2 ^ 63) with 9223372036854775808 in *.
  change (2 ^ 64) with 18446744073709551616.
  rewrite Z.mod_small; lia.
Qed.

Lemma u32_id z : uint32_range z -> u32 z = z.
Proof. unfold uint32_range, u32, unsigned. intros H. apply Z.mod_small. lia. Qed.

Lemma u256_id z : uint256_range z -> u256 z = z.
Proof. unfold uint256_range, u256, unsigned. intros H. apply Z.mod_small. lia. Qed.

Lemma u256_range z : uint256_range (u256 z).
Proof. unfold uint256_range, u256, unsigned. apply Z.mod_pos_bound. lia. Qed.

Lemma UintToArith256_range a : uint256_range (UintToArith256 a).
Proof. apply u256_range. Qed.

Lemma land_sign_bit c : 0 <= c < 2 ^ 24 ->
  (Z.land c 0x00800000 =? 0) = (c <? 2 ^ 23).
Proof.
  intros Hc.
  change 0x00800000 with (2 ^ 23).
  assert (Hl : Z.land c (2 ^ 23) = if Z.testbit c 23 then 2 ^ 23 else 0).
  { apply Z.bits_inj'. intros i Hi.
    rewrite Z.land_spec, Z.pow2_bits_eqb by lia.
    destruct (Z.eqb_spec 23 i) as [<- | Hne].
    - rewrite andb_true_r. destruct (Z.testbit c 23).
      + now rewrite Z.pow2_bits_true by lia.
      + now rewrite Z.bits_0.
    - rewrite andb_false_r. destruct (Z.testbit c 23).
      + rewrite Z.pow2_bits_false by lia. reflexivity.
      + now rewrite Z.bits_0. }
  rewrite Hl.
  destruct (Z.testbit c 23) eqn:Hb.
  - apply Z.testbit_true in Hb; [| lia].
    assert (c / 2 ^ 23 <> 0) by (intros E; rewrite E in Hb; discriminate).
    assert (2 ^ 23 <= c).
    { destruct (Z.lt_ge_cases c (2 ^ 23)) as [Hlt | Hge]; [| exact Hge].
      rewrite Z.div_small in H by lia. congruence. }
    change (2 ^ 23 =? 0) with false. symmetry. apply Z.ltb_ge. lia.
  - apply Z.testbit_false in Hb; [| lia].
    assert (c < 2 ^ 23).
    { destruct (Z.lt_ge_cases c (2 ^ 23)) as [Hlt | Hge]; [exact Hlt |].
      assert (c / 2 ^ 23 = 1).
      { symmetry. apply Z.div_unique with (r := c - 2 ^ 23); lia. }
      rewrite H in Hb. discriminate. }
    simpl. symmetry. apply Z.ltb_lt. lia.
Qed.

Lemma compact_fields c n : 0 <= c < 2 ^ 23 -> 0 <= n ->
  let w := Z.lor c (Z.shiftl n 24) in
  Z.shiftr w 24 = n /\ Z.land w 0x007fffff = c /\ Z.land w 0x00800000 = 0.
Proof.
  intros Hc Hn w. unfold w.
  assert (Hs : Z.shiftl n 24 = n * 2 ^ 23 * 2) by (rewrite Z.shiftl_mul_pow2; lia).
  repeat split.
  - rewrite Z.shiftr_lor, Z.shiftr_shiftl_l, Z.sub_diag, Z.shiftl_0_r by lia.
    rewrite Z.shiftr_div_pow2, Z.div_small by lia. reflexivity.
  - change 0x007fffff with (Z.ones 23).
    rewrite Z.land_lor_distr_l, !Z.land_ones by lia.
    rewrite Hs, <- Z.mul_assoc, (Z.mul_comm n), <- Z.mul_assoc, Z.mul_comm, Z.mod_mul by lia.
    rewrite Z.mod_small, Z.lor_0_r by lia. reflexivity.
  - change 0x00800000 with (2 ^ 23).
    apply Z.bits_inj'. intros i Hi.
    rewrite Z.land_spec, Z.lor_spec, Z.bits_0, Z.pow2_bits_eqb by lia.
    destruct (Z.eqb_spec 23 i) as [<- | Hne]; [| apply andb_false_r].
    rewrite andb_true_r, Z.shiftl_spec by lia.
    rewrite (Z.testbit_neg_r n) by lia. rewrite orb_false_r.
    apply Z.testbit_false; [lia |]. rewrite Z.div_small by lia. reflexivity.
Qed.

Lemma bits_nonneg x : 0 <= bits x.
Proof.
  unfold bits. destruct (x =? 0); [lia |].
  pose proof (Z.log2_nonneg x). lia.
Qed.

Lemma bits_spec x : 0 < x -> 2 ^ (bits x - 1) <= x < 2 ^ bits x.
Proof.
  intros Hx. unfold bits.
  destruct (Z.eqb_spec x 0) as [-> | _]; [lia |].
  replace (Z.log2 x + 1 - 1) with (Z.log2 x) by lia.
  replace (Z.log2 x + 1) with (Z.succ (Z.log2 x)) by lia.
  apply Z.log2_spec. exact Hx.
Qed.

Lemma bits_zero x : 0 <= x -> bits x = 0 -> x = 0.
Proof.
  unfold bits. intros Hx. destruct (Z.eqb_spec x 0) as [-> | _]; [reflexivity |].
  pose proof (Z.log2_nonneg x). lia.
Qed.

Lemma bits_le_256 x : uint256_range x -> bits x <= 256.
Proof.
  intros [H0 H1]. unfold bits.
  destruct (Z.eqb_spec x 0) as [-> | Hne]; [lia |].
  assert (Z.log2 x < 256) by (apply Z.log2_lt_pow2; lia). lia.
Qed.

(** The byte length [nSize] that [GetCompact] starts from. *)
Lemma byte_length_spec x :
  uint256_range x ->
  let n := (bits x + 7) / 8 in
  0 <= n <= 32 /\ x < 2 ^ (8 * n) /\ (n = 0 -> x = 0).
Proof.
  intros Hx n.
  pose proof (bits_nonneg x) as Hb0. pose proof (bits_le_256 x Hx) as Hb1.
  assert (Hn : 8 * n <= bits x + 7 < 8 * n + 8).
  { unfold n. pose proof (Z.div_mod (bits x + 7) 8 ltac:(lia)).
    pose proof (Z.mod_pos_bound (bits x + 7) 8 ltac:(lia)). lia. }
  split; [lia |]. split.
  - destruct (Z.eq_dec x 0) as [-> | Hne].
    + apply Z.pow_pos_nonneg; lia.
    + destruct (bits_spec x ltac:(unfold uint256_range in Hx; lia)) as [_ Hlt].
      eapply Z.lt_le_trans; [exact Hlt |].
      apply Z.pow_le_mono_r; lia.
  - intros E. apply bits_zero; [unfold uint256_range in Hx; lia | lia].
Qed.

Lemma mantissa24_range x : uint256_range x -> 0 <= mantissa24 x < 2 ^ 24.
Proof.
  intros Hx. destruct (byte_length_spec x Hx) as (Hn & Hlt & _).
  unfold mantissa24. set (n := (bits x + 7) / 8) in *.
  destruct Hx as [Hx0 Hx1].
  destruct (Z.leb_spec n 3) as [Hle | Hgt].
  - split; [apply Z.mul_nonneg_nonneg; [lia | apply Z.pow_nonneg; lia] |].
    replace (2 ^ 24) with (2 ^ (8 * n) * 2 ^ (8 * (3 - n)))
      by (rewrite <- Z.pow_add_r by lia; f_equal; lia).
    apply Z.mul_lt_mono_pos_r; [apply Z.pow_pos_nonneg; lia | exact Hlt].
  - split; [apply Z.div_pos; [lia | apply Z.pow_pos_nonneg; lia] |].
    apply Z.div_lt_upper_bound; [apply Z.pow_pos_nonneg; lia |].
    rewrite <- Z.pow_add_r by lia.
    replace (8 * (n - 3) + 24) with (8 * n) by lia. exact Hlt.
Qed.

Lemma GetCompact_eq x :
  uint256_range x ->
  let n := (bits x + 7) / 8 in
  let m := mantissa24 x in
  GetCompact x =
    if m <? 2 ^ 23 then Z.lor m (Z.shiftl n 24)
    else Z.lor (m / 2 ^ 8) (Z.shiftl (n + 1) 24).
Proof.
  intros Hx n m.
  pose proof (mantissa24_range x Hx) as Hm. fold m in Hm.
  destruct (byte_length_spec x Hx) as (Hn & Hlt & _). fold n in Hn, Hlt.
  assert (Hpre : (if n <=? 3 then u32 (Z.shiftl (GetLow64 x) (8 * (3 - n)))
                  else u32 (GetLow64 (shr x (8 * (n - 3))))) = m).
  { unfold m, mantissa24. fold n. unfold GetLow64, shr, u64, u32, unsigned.
    destruct Hx as [Hx0 Hx1].
    destruct (Z.leb_spec n 3) as [Hle | Hgt].
    - assert (x < 2 ^ 24).
      { eapply Z.lt_le_trans; [exact Hlt | apply Z.pow_le_mono_r; lia]. }
      rewrite (Z.mod_small x) by lia.
      rewrite Z.shiftl_mul_pow2 by lia.
      apply Z.mod_small.
      unfold m, mantissa24 in Hm. fold n in Hm.
      destruct (Z.leb_spec n 3); lia.
    - rewrite Z.shiftr_div_pow2 by lia.
      unfold m, mantissa24 in Hm. fold n in Hm.
      destruct (Z.leb_spec n 3); [lia |].
      generalize dependent (x / 2 ^ (8 * (n - 3))). intros q Hq.
      rewrite (Z.mod_small q) by lia. apply Z.mod_small. lia. }
  unfold GetCompact. fold n. rewrite Hpre.
  rewrite land_sign_bit by exact Hm.
  destruct (m <? 2 ^ 23); simpl; [reflexivity |].
  rewrite Z.shiftr_div_pow2 by lia. reflexivity.
Qed.


Lemma div_mul_le x p : 0 <= x -> 0 < p -> 0 <= x / p * p <= x.
Proof.
  intros Hx Hp. split.
  - apply Z.mul_nonneg_nonneg; [apply Z.div_pos |]; lia.
  - rewrite Z.mul_comm. apply Z.mul_div_le. exact Hp.
Qed.

Lemma div_div_mul_le x p q : 0 <= x -> 0 < p -> 0 < q -> 0 <= x / p / q * (q * p) <= x.
Proof.
  intros Hx Hp Hq.
  pose proof (div_mul_le x p Hx Hp) as [H1 H2].
  assert (Hd : 0 <= x / p) by (apply Z.div_pos; lia).
  pose proof (div_mul_le (x / p) q Hd Hq) as [H3 H4].
  rewrite Z.mul_assoc. split.
  - apply Z.mul_nonneg_nonneg; lia.
  - eapply Z.le_trans; [| exact H2].
    apply Z.mul_le_mono_nonneg_r; lia.
Qed.

Lemma u256_le y : 0 <= y -> 0 <= u256 y <= y.
Proof.
  intros Hy. unfold u256, unsigned. split.
  - apply Z.mod_pos_bound. lia.
  - apply Z.mod_le; lia.
Qed.

Lemma compact_value_lor c k : 0 <= c < 2 ^ 23 -> 0 <= k ->
  compact_value (Z.lor c (Z.shiftl k 24)) =
    if k <=? 3 then c / 2 ^ (8 * (3 - k)) else u256 (c * 2 ^ (8 * (k - 3))).
Proof.
  intros Hc Hk.
  destruct (compact_fields c k Hc Hk) as (Hsz & Hw & _).
  unfold compact_value, SetCompact. cbv zeta. rewrite Hsz, Hw. cbn [fst].
  destruct (Z.leb_spec k 3).
  - rewrite Z.shiftr_div_pow2 by lia. reflexivity.
  - unfold shl. rewrite Z.shiftl_mul_pow2 by lia. reflexivity.
Qed.

(** Decoding what [GetCompact] encoded never gives more than the magnitude
    encoded: the encoder truncates. *)
Lemma compact_value_GetCompact_le x :
  uint256_range x -> 0 <= compact_value (GetCompact x) <= x.
Proof.
  intros Hx.
  pose proof (mantissa24_range x Hx) as Hm.
  destruct (byte_length_spec x Hx) as (Hn & _ & _).
  rewrite (GetCompact_eq x Hx).
  assert (Hmdef : mantissa24 x = if (bits x + 7) / 8 <=? 3 then x * 2 ^ (8 * (3 - (bits x + 7) / 8)) else x / 2 ^ (8 * ((bits x + 7) / 8 - 3)))
    by reflexivity.
  destruct Hx as [Hx0 _].
  generalize dependent (mantissa24 x). intros m Hm Hmdef.
  generalize dependent ((bits x + 7) / 8). intros n Hn Hmdef.
  destruct (Z.ltb_spec m (2 ^ 23)) as [Hsmall | Hbig].
  - rewrite compact_value_lor by lia.
    destruct (Z.leb_spec n 3) as [Hle | Hgt].
    + rewrite Hmdef, Z.div_mul by (apply Z.pow_nonzero; lia). lia.
    + assert (Hp : 0 < 2 ^ (8 * (n - 3))) by (apply Z.pow_pos_nonneg; lia).
      subst m.
      pose proof (div_mul_le x _ Hx0 Hp) as Hd.
      pose proof (u256_le _ (proj1 Hd)) as Hu.
      generalize dependent (u256 (x / 2 ^ (8 * (n - 3)) * 2 ^ (8 * (n - 3)))).
      intros; lia.
  - assert (Hc : 0 <= m / 2 ^ 8 < 2 ^ 23).
    { split; [apply Z.div_pos; lia |].
      apply Z.div_lt_upper_bound; lia. }
    rewrite compact_value_lor by lia.
    destruct (Z.leb_spec (n + 1) 3) as [Hle | Hgt].
    + (* the mantissa is a multiple of 256: nothing is lost *)
      destruct (Z.leb_spec n 3); [| lia].
      assert (He : m = x * 2 ^ (8 * (3 - (n + 1))) * 2 ^ 8).
      { rewrite Hmdef, <- Z.mul_assoc, <- Z.pow_add_r by lia. do 2 f_equal. lia. }
      rewrite He.
      rewrite Z.div_mul by lia.
      rewrite Z.div_mul by (apply Z.pow_nonzero; lia). lia.
    + assert (Hle : 0 <= m / 2 ^ 8 * 2 ^ (8 * (n + 1 - 3)) <= x).
      { destruct (Z.leb_spec n 3) as [Hn3 | Hn3].
        * assert (n = 3) by lia. subst n.
          replace (8 * (3 - 3)) with 0 in Hmdef by lia.
          rewrite Z.pow_0_r, Z.mul_1_r in Hmdef. subst m.
          replace (8 * (3 + 1 - 3)) with 8 by lia.
          apply div_mul_le; lia.
        * assert (Hq : 0 < 2 ^ (8 * (n - 3))) by (apply Z.pow_pos_nonneg; lia).
          replace (8 * (n + 1 - 3)) with (8 + 8 * (n - 3)) by lia.
          rewrite Z.pow_add_r by lia. subst m.
          apply div_div_mul_le; lia. }
      pose proof (u256_le _ (proj1 Hle)) as Hu.
      generalize dependent (u256 (m / 2 ^ 8 * 2 ^ (8 * (n + 1 - 3)))).
      generalize dependent (m / 2 ^ 8 * 2 ^ (8 * (n + 1 - 3))).
      intros; lia.
Qed.

Lemma compact_value_nonneg nCompact : 0 <= compact_value nCompact.
Proof.
  unfold compact_value, SetCompact. cbv zeta. cbn [fst].
  assert (Hw : 0 <= Z.land nCompact 0x007fffff) by (apply Z.land_nonneg; right; lia).
  destruct (Z.shiftr nCompact 24 <=? 3).
  - apply Z.shiftr_nonneg. exact Hw.
  - unfold shl. apply u256_range.
Qed.

(** ** The validator *)

(** C1: [CheckProofOfWork] accepts exactly when the decoded target is not
    negative, not overflowed, greater than 0, at most [powLimit], and the
    hash is at most the target; in every other case the result is [false].
    The function is total and depends on its three arguments only. *)
Theorem CheckProofOfWork_iff (hash nBits : Z) (params : Params) :
  let '(target, fNegative, fOverflow) := SetCompact nBits in
  let accepted :=
    fNegative = false /\ fOverflow = false /\ 0 < target /\
    target <= UintToArith256 (powLimit params) /\ UintToArith256 hash <= target in
  (CheckProofOfWork hash nBits params = true <-> accepted) /\
  (CheckProofOfWork hash nBits params = false <-> ~ accepted).
Proof.
  pose proof (compact_value_nonneg nBits) as Hnn.
  unfold compact_value, CheckProofOfWork in *.
  destruct (SetCompact nBits) as [[target fNegative] fOverflow]. cbn [fst] in Hnn.
  cbv zeta.
  match goal with
  | |- (?b = true <-> ?A) /\ _ =>
      assert (Hiff : b = true <-> A); [| split; [exact Hiff |];
        destruct b; split; try discriminate; try reflexivity; intros; intuition congruence]
  end.
  destruct fNegative; [split; [discriminate | intros (? & _); discriminate] |].
  destruct fOverflow;
    [rewrite orb_true_r; split; [discriminate | intros (_ & ? & _); discriminate] |].
  cbn [orb]. rewrite orb_false_r.
  destruct (Z.eqb_spec target 0) as [-> | Hne]; cbn [orb];
    [split; [discriminate | intros (_ & _ & ? & _); lia] |].
  destruct (Z.gtb_spec target (UintToArith256 (powLimit params))) as [Hgt | Hle];
    [split; [discriminate | intros (_ & _ & _ & ? & _); lia] |].
  destruct (Z.gtb_spec (UintToArith256 hash) target) as [Hh | Hh];
    [split; [discriminate | intros (_ & _ & _ & _ & ?); lia] |].
  split; [intros _ | reflexivity].
  repeat split; lia.
Qed.

(** ** Which path a call takes *)

Lemma GetNextWorkRequired_keep p pblock params n :
  nInterval params (nextHeight p) = Ok n -> n <> 0 ->
  Z.rem (nextHeight p) n <> 0 ->
  fHardFork params (nextHeight p) = false ->
  GetNextWorkRequired (Some p) pblock params =
    keep_difficulty p pblock params n (GetCompact (UintToArith256 (powLimit params))).
Proof.
  intros Hn Hn0 Hrem Hfork.
  unfold GetNextWorkRequired. cbn [assert_ptr bind].
  rewrite Hn. cbn [bind]. unfold rem_int64.
  destruct (Z.eqb_spec n 0) as [? | _]; [contradiction |]. cbn [bind].
  destruct (Z.eqb_spec (Z.rem (nextHeight p) n) 0) as [? | _]; [contradiction |].
  rewrite Hfork. reflexivity.
Qed.

Lemma GetNextWorkRequired_retarget p pblock params n :
  nInterval params (nextHeight p) = Ok n -> n <> 0 ->
  Z.rem (nextHeight p) n = 0 \/ fHardFork params (nextHeight p) = true ->
  GetNextWorkRequired (Some p) pblock params =
    retarget p params (nextHeight p) (nTargetTimespan params (nextHeight p)) n.
Proof.
  intros Hn Hn0 Hpath.
  unfold GetNextWorkRequired. cbn [assert_ptr bind].
  rewrite Hn. cbn [bind]. unfold rem_int64.
  destruct (Z.eqb_spec n 0) as [? | _]; [contradiction |]. cbn [bind].
  destruct Hpath as [-> | ->].
  - reflexivity.
  - rewrite andb_false_r. reflexivity.
Qed.

Lemma fHardFork_false params h :
  h <> nForkOne params -> h <> nForkTwo params -> fHardFork params h = false.
Proof.
  intros H1 H2. unfold fHardFork.
  destruct (Z.eqb_spec h (nForkOne params)); [contradiction |].
  destruct (Z.eqb_spec h (nForkTwo params)); [contradiction |]. reflexivity.
Qed.


(** C3: off the interval boundary and off both fork heights, with
    [fPowAllowMinDifficultyBlocks] false, the result is the previous block's
    [nBits], whatever [fPowNoRetargeting] and the candidate's time are. *)
Theorem GetNextWorkRequired_unchanged p pblock params n :
  nInterval params (nextHeight p) = Ok n -> n <> 0 ->
  Z.rem (nextHeight p) n <> 0 ->
  nextHeight p <> nForkOne params ->
  nextHeight p <> nForkTwo params ->
  fPowAllowMinDifficultyBlocks params = false ->
  GetNextWorkRequired (Some p) pblock params = Ok (nBits p).
Proof.
  intros Hn Hn0 Hrem H1 H2 Hmin.
  rewrite (GetNextWorkRequired_keep p pblock params n Hn Hn0 Hrem)
    by (apply fHardFork_false; assumption).
  unfold keep_difficulty. rewrite Hmin. reflexivity.
Qed.

(** C9: off the retarget path with [fPowAllowMinDifficultyBlocks] set, a
    candidate more than [2 * nPowTargetSpacing] seconds after the previous
    block gets the compact form of [powLimit], which depends on the
    parameters only. *)
Theorem min_difficulty_after_two_spacings p pblock params n :
  nInterval params (nextHeight p) = Ok n -> n <> 0 ->
  Z.rem (nextHeight p) n <> 0 ->
  nextHeight p <> nForkOne params ->
  nextHeight p <> nForkTwo params ->
  fPowAllowMinDifficultyBlocks params = true ->
  int64_range (nPowTargetSpacing params * 2) ->
  int64_range (CBlockIndex.GetBlockTime p + nPowTargetSpacing params * 2) ->
  CBlockHeader.GetBlockTime pblock > CBlockIndex.GetBlockTime p + 2 * nPowTargetSpacing params ->
  GetNextWorkRequired (Some p) pblock params =
    Ok (GetCompact (UintToArith256 (powLimit params))).
Proof.
  intros Hn Hn0 Hrem H1 H2 Hmin Hr1 Hr2 Hlate.
  rewrite (GetNextWorkRequired_keep p pblock params n Hn Hn0 Hrem)
    by (apply fHardFork_false; assumption).
  unfold keep_difficulty. rewrite Hmin.
  rewrite (i64_id _ Hr1), (i64_id _ Hr2).
  destruct (Z.gtb_spec (CBlockHeader.GetBlockTime pblock)
              (CBlockIndex.GetBlockTime p + nPowTargetSpacing params * 2)); [reflexivity | lia].
Qed.

(** ** The adjustment interval *)

Lemma i32_range z : int_range (i32 z).
Proof.
  unfold int_range, i32, signed.
  change (2 ^ (32 - 1)) with 2147483648. change (2 ^ 31) with 2147483648.
  change (2 ^ 32) with 4294967296.
  pose proof (Z.mod_pos_bound (z + 2147483648) 4294967296 ltac:(lia)). lia.
Qed.

Lemma nTargetTimespan_fork_two params h :
  nForkTwo params <= h -> nTargetTimespan params h = 18900.
Proof.
  intros Hh. unfold nTargetTimespan.
  destruct (Z.geb_spec h (nForkTwo params)); [reflexivity | lia].
Qed.

Lemma nTargetTimespan_fork_one params h :
  nForkOne params <= h < nForkTwo params -> nTargetTimespan params h = 75600.
Proof.
  intros Hh. unfold nTargetTimespan.
  destruct (Z.geb_spec h (nForkTwo params)); [lia |].
  destruct (Z.geb_spec h (nForkOne params)); [reflexivity | lia].
Qed.

Lemma nTargetTimespan_base params h :
  h < nForkOne params -> h < nForkTwo params ->
  nTargetTimespan params h = i32 (nPowTargetTimespan params).
Proof.
  intros H1 H2. unfold nTargetTimespan.
  destruct (Z.geb_spec h (nForkTwo params)); [lia |].
  destruct (Z.geb_spec h (nForkOne params)); [lia | reflexivity].
Qed.

Lemma nTargetTimespan_int_range params h : int_range (nTargetTimespan params h).
Proof.
  unfold nTargetTimespan.
  destruct (h >=? nForkTwo params); [unfold int_range; cbn; lia |].
  destruct (h >=? nForkOne params); [unfold int_range; cbn; lia |].
  apply i32_range.
Qed.

Lemma div_int_ok a b :
  b <> 0 -> ~ (a = - 2 ^ 31 /\ b = -1) -> div_int a b = Ok (i32 (a ÷ b)).
Proof.
  intros Hb Hov. unfold div_int.
  destruct (Z.eqb_spec b 0); [contradiction |].
  destruct (Z.eqb_spec a (- 2 ^ 31)); destruct (Z.eqb_spec b (-1)); cbn [andb];
    try reflexivity.
  exfalso. apply Hov. split; assumption.
Qed.

Lemma div_int_inv a b n :
  div_int a b = Ok n -> b <> 0 /\ n = i32 (a ÷ b).
Proof.
  unfold div_int.
  destruct (Z.eqb_spec b 0); [discriminate |].
  destruct ((a =? - 2 ^ 31) && (b =? -1)); [discriminate |].
  intros [= <-]. split; [assumption | reflexivity].
Qed.

Lemma keep_difficulty_returns p pblock params n l :
  exists r, keep_difficulty p pblock params n l = Ok r.
Proof.
  unfold keep_difficulty.
  destruct (fPowAllowMinDifficultyBlocks params); [| eexists; reflexivity].
  match goal with |- context [if ?b then _ else _] => destruct b end;
    eexists; reflexivity.
Qed.

Lemma retarget_no_division_fault p params h T n :
  retarget p params h T n <> Abort DivisionByZero.
Proof.
  unfold retarget, assert, assert_ptr.
  destruct (i32 (nHeight p - (n - 1)) >=? 0); cbn [bind]; [| discriminate].
  destruct (CBlockIndex.GetAncestor p _) as [first |]; cbn [bind]; [| discriminate].
  destruct (fPowNoRetargeting params); [discriminate |].
  unfold measured_timespan, deref.
  destruct (h >=? nForkTwo params).
  - destruct (CBlockIndex.walk _ _) as [anc |]; cbn [bind]; [| discriminate].
    unfold Retarget, div. destruct (u64 T =? 0); cbn [bind]; discriminate.
  - cbn [bind]. unfold Retarget, div. destruct (u64 T =? 0); cbn [bind]; discriminate.
Qed.

(** C10: [nHeight % nInterval] is computed without a test of [nInterval]:
    with a positive spacing and a non-negative timespan the call stops on a
    division by zero exactly when the spacing exceeds the effective
    timespan; from [nForkTwo] on that timespan is 18900, so every spacing
    above 18900 stops every call there. *)
Theorem interval_zero_is_unguarded p pblock params :
  0 < nTargetSpacing params ->
  0 <= nTargetTimespan params (nextHeight p) ->
  (GetNextWorkRequired (Some p) pblock params = Abort DivisionByZero <->
   nTargetTimespan params (nextHeight p) < nTargetSpacing params) /\
  (nForkTwo params <= nextHeight p ->
   nTargetTimespan params (nextHeight p) = 18900 /\
   (18900 < nTargetSpacing params ->
    GetNextWorkRequired (Some p) pblock params = Abort DivisionByZero)).
Proof.
  intros Hs HT.
  pose proof (nTargetTimespan_int_range params (nextHeight p)) as HTr.
  assert (Hzero : nTargetTimespan params (nextHeight p) < nTargetSpacing params ->
                  GetNextWorkRequired (Some p) pblock params = Abort DivisionByZero).
  { intros Hlt. unfold GetNextWorkRequired, nInterval. cbn [assert_ptr bind].
    rewrite div_int_ok by lia.
    rewrite Z.quot_small by lia. reflexivity. }
  split; [split; [| exact Hzero] |].
  - intros Hfault.
    destruct (Z.lt_ge_cases (nTargetTimespan params (nextHeight p)) (nTargetSpacing params))
      as [Hlt | Hge]; [exact Hlt | exfalso].
    set (T := nTargetTimespan params (nextHeight p)) in *.
    set (s := nTargetSpacing params) in *.
    assert (Hq : 1 <= T ÷ s <= T).
    { rewrite Z.quot_div_nonneg by lia. split.
      - apply Z.div_le_lower_bound; lia.
      - apply Z.div_le_upper_bound; nia. }
    assert (Hn : nInterval params (nextHeight p) = Ok (T ÷ s)).
    { unfold nInterval. fold T s. rewrite div_int_ok by lia.
      rewrite i32_id by (unfold int_range in *; lia). reflexivity. }
    destruct (Z.eq_dec (Z.rem (nextHeight p) (T ÷ s)) 0) as [Hrem | Hrem].
    + rewrite (GetNextWorkRequired_retarget p pblock params (T ÷ s)) in Hfault
        by (auto; lia).
      exact (retarget_no_division_fault _ _ _ _ _ Hfault).
    + destruct (fHardFork params (nextHeight p)) eqn:Hfork.
      * rewrite (GetNextWorkRequired_retarget p pblock params (T ÷ s)) in Hfault
          by (auto; lia).
        exact (retarget_no_division_fault _ _ _ _ _ Hfault).
      * rewrite (GetNextWorkRequired_keep p pblock params (T ÷ s)) in Hfault
          by (auto; lia).
        destruct (keep_difficulty_returns p pblock params (T ÷ s)
                    (GetCompact (UintToArith256 (powLimit params)))) as [r Hr].
        congruence.
  - intros Hh. pose proof (nTargetTimespan_fork_two params _ Hh) as HT2.
    split; [exact HT2 |]. intros Hbig. apply Hzero. lia.
Qed.

(** ** The limits of the adjustment step *)

Lemma GetNextWorkRequired_rescales p pblock params n first a :
  nInterval params (nextHeight p) = Ok n -> n <> 0 ->
  Z.rem (nextHeight p) n = 0 \/ fHardFork params (nextHeight p) = true ->
  0 <= i32 (nHeight p - (n - 1)) ->
  CBlockIndex.GetAncestor p (i32 (nHeight p - (n - 1))) = Some first ->
  fPowNoRetargeting params = false ->
  measured_timespan p first params (nextHeight p)
    (nTargetTimespan params (nextHeight p)) n = Ok a ->
  GetNextWorkRequired (Some p) pblock params =
    Retarget params (nBits p)
      (limit_timespan params (nextHeight p) (nTargetTimespan params (nextHeight p)) a)
      (nTargetTimespan params (nextHeight p)).
Proof.
  intros Hn Hn0 Hpath Hfirst Hanc Hno Hm.
  rewrite (GetNextWorkRequired_retarget p pblock params n Hn Hn0 Hpath).
  unfold retarget, assert.
  destruct (Z.geb_spec (i32 (nHeight p - (n - 1))) 0) as [_ | ?]; [| lia].
  cbn [bind]. rewrite Hanc. cbn [assert_ptr bind]. rewrite Hno, Hm. reflexivity.
Qed.

Lemma limit_timespan_between params h T a lo hi :
  timespan_limits params h T = (lo, hi) -> lo <= hi ->
  lo <= limit_timespan params h T a <= hi.
Proof.
  intros Hl Hle. unfold limit_timespan. rewrite Hl.
  destruct (Z.ltb_spec a lo);
    match goal with |- context [?x >? hi] => destruct (Z.gtb_spec x hi) end; lia.
Qed.

(** C5: the timespan that enters the rescaling lies within the limits of
    the height's fork regime: a quarter and four times the target timespan
    before [nForkOne], 70/99 and 99/70 of it from [nForkOne] on, 453/494 and
    494/453 of it from [nForkTwo] on; and it is this limited value that a
    retargeting call rescales by. *)
Theorem limited_timespan_in_bounds params h a :
  let T := nTargetTimespan params h in
  let a' := limit_timespan params h T a in
  nForkOne params <= nForkTwo params ->
  (h < nForkOne params -> 0 <= T < 2 ^ 29) ->
  (h < nForkOne params -> T ÷ 4 <= a' <= T * 4) /\
  (nForkOne params <= h < nForkTwo params -> T * 70 ÷ 99 <= a' <= T * 99 ÷ 70) /\
  (nForkTwo params <= h -> T * 453 ÷ 494 <= a' <= T * 494 ÷ 453) /\
  (forall p pblock n first,
     nextHeight p = h ->
     nInterval params h = Ok n -> n <> 0 ->
     Z.rem h n = 0 \/ fHardFork params h = true ->
     0 <= i32 (nHeight p - (n - 1)) ->
     CBlockIndex.GetAncestor p (i32 (nHeight p - (n - 1))) = Some first ->
     fPowNoRetargeting params = false ->
     measured_timespan p first params h T n = Ok a ->
     GetNextWorkRequired (Some p) pblock params = Retarget params (nBits p) a' T).
Proof.
  intros T a' Hforks Hbase.
  split; [| split; [| split]].
  - intros Hh. specialize (Hbase Hh).
    apply (limit_timespan_between params h T a).
    + unfold timespan_limits.
      destruct (Z.geb_spec h (nForkOne params)); [lia |].
      destruct (Z.geb_spec h (nForkTwo params)); [lia |]. cbn [andb].
      rewrite i32_id by (unfold int_range; lia). reflexivity.
    + rewrite Z.quot_div_nonneg by lia.
      pose proof (Z.div_le_upper_bound T 4 T ltac:(lia) ltac:(lia)). lia.
  - intros Hh. subst a' T. rewrite (nTargetTimespan_fork_one params h Hh).
    apply (limit_timespan_between params h 75600 a); [| cbn; lia].
    unfold timespan_limits.
    destruct (Z.geb_spec h (nForkOne params)); [| lia].
    destruct (Z.ltb_spec h (nForkTwo params)); [| lia].
    destruct (Z.geb_spec h (nForkTwo params)); [lia |]. reflexivity.
  - intros Hh. subst a' T. rewrite (nTargetTimespan_fork_two params h Hh).
    apply (limit_timespan_between params h 18900 a); [| cbn; lia].
    unfold timespan_limits.
    destruct (Z.geb_spec h (nForkTwo params)); [| lia].
    destruct ((h >=? nForkOne params) && (h <? nForkTwo params)); reflexivity.
  - intros p pblock n first <- Hn Hn0 Hpath Hfirst Hanc Hno Hm.
    apply (GetNextWorkRequired_rescales p pblock params n first a); assumption.
Qed.

(** ** The rescaling *)

Lemma bits_pos x : 0 < x -> 1 <= bits x.
Proof.
  intros Hx. unfold bits. destruct (Z.eqb_spec x 0); [lia |].
  pose proof (Z.log2_nonneg x). lia.
Qed.

(** When the product that is computed fits 256 bits nothing wraps, and the
    rescaling returns the value of the unbounded arithmetic, in compact
    form. *)
Lemma Retarget_without_wrap params nBits a T :
  let bnOld := compact_value nBits in
  let bnPowLimit := UintToArith256 (powLimit params) in
  let guard := bits bnOld >? bits bnPowLimit - 1 in
  0 < bnPowLimit ->
  uint32_range a ->
  1 < T -> int_range T ->
  (if guard then Z.shiftr bnOld 1 else bnOld) * a < 2 ^ 256 ->
  fShift params bnOld = guard /\
  Retarget params nBits a T = Ok (GetCompact (spec_rescale bnOld bnPowLimit a T)).
Proof.
  intros bnOld bnPowLimit guard HL Ha HT HTr Hfit.
  pose proof (compact_value_nonneg nBits) as Hold. fold bnOld in Hold.
  pose proof (UintToArith256_range (powLimit params)) as HLr. fold bnPowLimit in HLr.
  assert (Hshift : fShift params bnOld = guard).
  { unfold fShift, guard. fold bnPowLimit.
    pose proof (bits_pos _ HL). pose proof (bits_le_256 _ HLr).
    rewrite u32_id by (unfold uint32_range; lia). reflexivity. }
  split; [exact Hshift |].
  unfold Retarget, spec_rescale. fold bnOld bnPowLimit guard. rewrite Hshift.
  rewrite (u32_id a Ha).
  assert (Hu64 : u64 T = T).
  { unfold u64, unsigned. apply Z.mod_small. unfold int_range in HTr. lia. }
  rewrite Hu64. unfold div.
  destruct (Z.eqb_spec T 0) as [? | _]; [lia |]. cbn [bind].
  unfold uint32_range in Ha.
  destruct guard.
  - unfold shr, shl, mul32. rewrite !Z.shiftl_mul_pow2 by lia.
    change (2 ^ 1) with 2.
    assert (Hhalf : 0 <= Z.shiftr bnOld 1) by (apply Z.shiftr_nonneg; exact Hold).
    set (x := Z.shiftr bnOld 1) in *.
    assert (Hprod : 0 <= x * a) by (apply Z.mul_nonneg_nonneg; lia).
    rewrite (u256_id (x * a)) by (unfold uint256_range; lia).
    assert (Hq : 0 <= x * a / T /\ x * a / T * 2 <= x * a).
    { split; [apply Z.div_pos; lia |].
      pose proof (Z.mul_div_le (x * a) T ltac:(lia)).
      assert (0 <= x * a / T) by (apply Z.div_pos; lia). nia. }
    rewrite u256_id by (unfold uint256_range; lia).
    reflexivity.
  - unfold mul32.
    rewrite u256_id by (unfold uint256_range; split; [apply Z.mul_nonneg_nonneg |]; lia).
    reflexivity.
Qed.

(** ** The two windows *)

Lemma GetAncestor_height_bounds p height q :
  CBlockIndex.GetAncestor p height = Some q -> 0 <= height <= nHeight p.
Proof.
  unfold CBlockIndex.GetAncestor.
  destruct (Z.gtb_spec height (nHeight p)); [discriminate |].
  destruct (Z.ltb_spec height 0); [discriminate |]. cbn [orb]. lia.
Qed.

(** ** The result never exceeds [powLimit] *)

Lemma CBlockIndex_rect_chain (P : CBlockIndex.t -> Prop) :
  (forall h tm b, P (CBlockIndex.Build h tm b None)) ->
  (forall h tm b q, P q -> P (CBlockIndex.Build h tm b (Some q))) ->
  forall p, P p.
Proof.
  intros Hgenesis Hnext. fix IH 1.
  intros [h tm b [q |]].
  - apply Hnext, IH.
  - apply Hgenesis.
Qed.

Lemma chain_head p : In p (CBlockIndex.chain p).
Proof. destruct p as [h tm b [q |]]; left; reflexivity. Qed.

Lemma last_non_special_in_chain p n l :
  In (last_non_special p n l) (CBlockIndex.chain p).
Proof.
  induction p as [h tm b | h tm b q IH] using CBlockIndex_rect_chain.
  - left. reflexivity.
  - cbn [last_non_special pprev nHeight nBits CBlockIndex.pprev CBlockIndex.nHeight
         CBlockIndex.nBits].
    destruct (negb (Z.rem h n =? 0) && (b =? l)).
    + right. exact IH.
    + left. reflexivity.
Qed.


(** ** Concrete calls *)



Lemma GetNextWorkRequired_unchanged_witness :
  GetNextWorkRequired (Some (CBlockIndex.regular 4 0 150 0x1e0ffff0)) (candidate 700)
    quiet_params = Ok (nBits (CBlockIndex.regular 4 0 150 0x1e0ffff0)).
Proof.
  apply (GetNextWorkRequired_unchanged _ _ quiet_params 4); by_computation.
Defined.

Lemma min_difficulty_after_two_spacings_witness :
  GetNextWorkRequired (Some (CBlockIndex.regular 4 0 150 0x1e0ffff0)) (candidate 901)
    testnet_params = Ok (GetCompact (UintToArith256 (powLimit testnet_params))).
Proof.
  apply (min_difficulty_after_two_spacings _ _ testnet_params 4); by_computation.
Defined.

Lemma limited_timespan_in_bounds_witness :
  600 ÷ 4 <= limit_timespan quiet_params 8 (nTargetTimespan quiet_params 8) 100 <= 600 * 4.
Proof.
  apply (limited_timespan_in_bounds quiet_params 8 100); by_computation.
Defined.

Lemma Retarget_without_wrap_example :
  2 ^ 256 <= compact_value 0x1e0ffff0 * 1209600 /\
  fShift main_params (compact_value 0x1e0ffff0) = true /\
  Retarget main_params 0x1e0ffff0 1209600 302400 =
    Ok (GetCompact (spec_rescale (compact_value 0x1e0ffff0)
                      (UintToArith256 (powLimit main_params)) 1209600 302400)).
Proof.
  split; [by_computation |].
  apply (Retarget_without_wrap main_params 0x1e0ffff0 1209600 302400); by_computation.
Defined.

(** C6: the long-window loop stops at a null pointer when the chain has
    fewer than [nInterval * 4] predecessors, and the block time is then read
    through that null pointer: with the sixteen blocks of heights 0 to 15
    and a long window of sixteen steps the call does not return. *)
Theorem long_window_walk_reads_null :
  CBlockIndex.walk 16 (Some (CBlockIndex.regular 15 0 4725 0x1e0ffff0)) = None /\
  GetNextWorkRequired (Some (CBlockIndex.regular 15 0 4725 0x1e0ffff0)) (candidate 80000)
    fork_two_params = Abort NullDereference.
Proof. by_computation. Qed.

(** ** Which inputs a call reads, and how it can end *)

Lemma nInterval_int_range params h n : nInterval params h = Ok n -> int_range n.
Proof.
  unfold nInterval. intros Hn. apply div_int_inv in Hn. destruct Hn as [_ ->].
  apply i32_range.
Qed.

Lemma nInterval_nonzero_timespan params h n :
  nInterval params h = Ok n -> n <> 0 -> nTargetTimespan params h <> 0.
Proof.
  unfold nInterval. intros Hn Hn0 HT. apply div_int_inv in Hn. destruct Hn as [_ Hn].
  apply Hn0. rewrite Hn, HT. reflexivity.
Qed.

Lemma u64_int_zero T : int_range T -> u64 T = 0 -> T = 0.
Proof.
  unfold int_range, u64, unsigned. intros HT Hz.
  apply Z.mod_divide in Hz; [| lia]. destruct Hz as [k Hk]. lia.
Qed.

(** X1: without the testnet rule the candidate header is not read: two
    calls that differ in the header only end the same way. *)
Theorem candidate_header_unread_without_min_difficulty p pblock pblock' params :
  fPowAllowMinDifficultyBlocks params = false ->
  GetNextWorkRequired p pblock params = GetNextWorkRequired p pblock' params.
Proof.
  intros Hmin. unfold GetNextWorkRequired, keep_difficulty. rewrite Hmin. reflexivity.
Qed.

(** X2: off the retarget path the call always returns, and what it returns
    is the compact form of [powLimit] or the [nBits] of a block of the
    chain: the walk of the testnet rule stops at the genesis block. *)
Theorem keep_path_returns_bits_of_chain p pblock params n :
  nInterval params (nextHeight p) = Ok n -> n <> 0 ->
  Z.rem (nextHeight p) n <> 0 ->
  fHardFork params (nextHeight p) = false ->
  exists r,
    GetNextWorkRequired (Some p) pblock params = Ok r /\
    (r = GetCompact (UintToArith256 (powLimit params)) \/
     exists b, In b (CBlockIndex.chain p) /\ r = nBits b).
Proof.
  intros Hn Hn0 Hrem Hfork.
  rewrite (GetNextWorkRequired_keep p pblock params n Hn Hn0 Hrem Hfork).
  unfold keep_difficulty.
  destruct (fPowAllowMinDifficultyBlocks params).
  - match goal with |- context [if ?b then _ else _] => destruct b end.
    + eexists. split; [reflexivity |]. left. reflexivity.
    + eexists. split; [reflexivity |]. right. eexists. split; [| reflexivity].
      apply last_non_special_in_chain.
  - eexists. split; [reflexivity |]. right. exists p. split; [apply chain_head | reflexivity].
Qed.

(** X4: with [fPowNoRetargeting] set and the testnet rule off, whatever the
    call returns is the previous block's [nBits], on every path. *)
Theorem no_retargeting_keeps_bits p pblock params r :
  fPowNoRetargeting params = true ->
  fPowAllowMinDifficultyBlocks params = false ->
  GetNextWorkRequired (Some p) pblock params = Ok r ->
  r = nBits p.
Proof.
  intros Hno Hmin. unfold GetNextWorkRequired. cbn [assert_ptr bind].
  destruct (nInterval params (nextHeight p)) as [n | f]; cbn [bind]; [| discriminate].
  destruct (rem_int64 (nextHeight p) n) as [m | f]; cbn [bind]; [| discriminate].
  destruct (negb (m =? 0) && negb (fHardFork params (nextHeight p))).
  - unfold keep_difficulty. rewrite Hmin. intros [= <-]. reflexivity.
  - unfold retarget.
    destruct (assert _) as [[] | f]; cbn [bind]; [| discriminate].
    destruct (assert_ptr _) as [first | f]; cbn [bind]; [| discriminate].
    rewrite Hno. intros [= <-]. reflexivity.
Qed.

(** X5: a retarget (interval boundary or fork height) on a chain of fewer
    than [nInterval] blocks fails [assert(nHeightFirst >= 0)]; the assertion
    comes before the test of [fPowNoRetargeting], which does not avoid it. *)
Theorem retarget_on_short_chain_fails_assertion p pblock params n :
  nInterval params (nextHeight p) = Ok n -> n <> 0 ->
  Z.rem (nextHeight p) n = 0 \/ fHardFork params (nextHeight p) = true ->
  0 <= nHeight p < n - 1 ->
  GetNextWorkRequired (Some p) pblock params = Abort AssertionFailed.
Proof.
  intros Hn Hn0 Hpath Hshort.
  rewrite (GetNextWorkRequired_retarget p pblock params n Hn Hn0 Hpath).
  pose proof (nInterval_int_range _ _ _ Hn) as Hr.
  unfold retarget, assert.
  rewrite i32_id by (unfold int_range in *; lia).
  destruct (Z.geb_spec (nHeight p - (n - 1)) 0); [lia | reflexivity].
Qed.

(** X7: the division of the 256-bit target never throws: a zero
    [nTargetTimespan] makes [nInterval] zero, and the call has stopped on
    [nHeight % nInterval] before. *)
Theorem big_division_never_throws p pblock params :
  GetNextWorkRequired p pblock params <> Abort UintError.
Proof.
  destruct p as [p |]; [| discriminate].
  unfold GetNextWorkRequired. cbn [assert_ptr bind].
  destruct (nInterval params (nextHeight p)) as [n | f] eqn:Hn; cbn [bind].
  2:{ unfold nInterval, div_int in Hn.
      destruct (nTargetSpacing params =? 0); [congruence |].
      destruct (_ && _); [congruence | discriminate]. }
  unfold rem_int64. destruct (Z.eqb_spec n 0) as [-> | Hn0]; cbn [bind]; [discriminate |].
  pose proof (nInterval_nonzero_timespan _ _ _ Hn Hn0) as HT.
  destruct (negb (Z.rem (nextHeight p) n =? 0) && negb (fHardFork params (nextHeight p))).
  - destruct (keep_difficulty_returns p pblock params n
                (GetCompact (UintToArith256 (powLimit params)))) as [r Hr].
    rewrite Hr. discriminate.
  - unfold retarget, assert, assert_ptr.
    destruct (i32 (nHeight p - (n - 1)) >=? 0); cbn [bind]; [| discriminate].
    destruct (CBlockIndex.GetAncestor p _) as [first |]; cbn [bind]; [| discriminate].
    destruct (fPowNoRetargeting params); [discriminate |].
    destruct (measured_timespan _ _ _ _ _ _) as [a | f] eqn:Hm; cbn [bind].
    + unfold Retarget, div.
      destruct (Z.eqb_spec (u64 (nTargetTimespan params (nextHeight p))) 0) as [Hz | _];
        cbn [bind]; [| discriminate].
      exfalso. apply HT. apply u64_int_zero; [apply nTargetTimespan_int_range | exact Hz].
    + unfold measured_timespan, deref in Hm.
      destruct (nextHeight p >=? nForkTwo params); [| discriminate].
      destruct (CBlockIndex.walk _ _); cbn [bind] in Hm; congruence.
Qed.

(** ** The two backward walks *)

Lemma last_non_special_split p n l :
  exists skipped rest,
    CBlockIndex.chain p = skipped ++ last_non_special p n l :: rest /\
    Forall (fun b => Z.rem (nHeight b) n <> 0 /\ nBits b = l) skipped /\
    (rest = [] \/ Z.rem (nHeight (last_non_special p n l)) n = 0 \/
     nBits (last_non_special p n l) <> l).
Proof.
  induction p as [h tm b | h tm b q IH] using CBlockIndex_rect_chain.
  - exists [], []. repeat split; [constructor | left; reflexivity].
  - cbn [last_non_special pprev nHeight nBits CBlockIndex.pprev CBlockIndex.nHeight
         CBlockIndex.nBits].
    destruct (Z.eqb_spec (Z.rem h n) 0) as [Hrem | Hrem]; cbn [negb andb].
    + exists [], (CBlockIndex.chain q). repeat split; [constructor |].
      right. left. exact Hrem.
    + destruct (Z.eqb_spec b l) as [Hb | Hb].
      * destruct IH as (skipped & rest & Hsplit & Hskip & Hstop).
        exists (CBlockIndex.Build h tm b (Some q) :: skipped), rest.
        split; [| split; [| exact Hstop]].
        -- cbn [CBlockIndex.chain CBlockIndex.pprev app]. rewrite <- Hsplit. reflexivity.
        -- constructor; [| exact Hskip]. split; assumption.
      * exists [], (CBlockIndex.chain q). repeat split; [constructor |].
        right. right. exact Hb.
Qed.

(** X3: the testnet rule, for a candidate that is not late: the call
    returns the [nBits] of the first block, going back from the previous
    one, that is the genesis block, or stands at a multiple of the interval,
    or has bits other than the compact [powLimit]; every block passed over
    is a min-difficulty block off the interval boundary. *)
Theorem min_difficulty_walk_result p pblock params n :
  let limit := GetCompact (UintToArith256 (powLimit params)) in
  nInterval params (nextHeight p) = Ok n -> n <> 0 ->
  Z.rem (nextHeight p) n <> 0 ->
  fHardFork params (nextHeight p) = false ->
  fPowAllowMinDifficultyBlocks params = true ->
  int64_range (nPowTargetSpacing params * 2) ->
  int64_range (CBlockIndex.GetBlockTime p + nPowTargetSpacing params * 2) ->
  CBlockHeader.GetBlockTime pblock <= CBlockIndex.GetBlockTime p + 2 * nPowTargetSpacing params ->
  exists skipped q rest,
    CBlockIndex.chain p = skipped ++ q :: rest /\
    GetNextWorkRequired (Some p) pblock params = Ok (nBits q) /\
    Forall (fun b => Z.rem (nHeight b) n <> 0 /\ nBits b = limit) skipped /\
    (rest = [] \/ Z.rem (nHeight q) n = 0 \/ nBits q <> limit).
Proof.
  intros limit Hn Hn0 Hrem Hfork Hmin Hr1 Hr2 Hearly.
  destruct (last_non_special_split p n limit) as (skipped & rest & Hsplit & Hskip & Hstop).
  exists skipped, (last_non_special p n limit), rest.
  split; [exact Hsplit |]. split; [| split; assumption].
  rewrite (GetNextWorkRequired_keep p pblock params n Hn Hn0 Hrem Hfork).
  unfold keep_difficulty. rewrite Hmin, (i64_id _ Hr1), (i64_id _ Hr2).
  destruct (Z.gtb_spec (CBlockHeader.GetBlockTime pblock)
              (CBlockIndex.GetBlockTime p + nPowTargetSpacing params * 2)); [lia |].
  reflexivity.
Qed.

Lemma walk_null n : CBlockIndex.walk n None = None.
Proof. destruct n; reflexivity. Qed.

Lemma walk_exhausted n p :
  CBlockIndex.walk n (Some p) = None <-> (length (CBlockIndex.chain p) <= n)%nat.
Proof.
  revert p. induction n as [| n IH]; intros p.
  - destruct p as [h tm b [q |]]; cbn; split; [discriminate | lia | discriminate | lia].
  - destruct p as [h tm b [q |]]; cbn [CBlockIndex.walk CBlockIndex.pprev CBlockIndex.chain length].
    + rewrite IH. lia.
    + rewrite walk_null. cbn. split; [lia | reflexivity].
Qed.

(** X6: from [nForkTwo] on, a retarget whose assertions hold reads through
    a null pointer exactly when the chain that ends in the previous block
    has at most [nInterval * 4] blocks. *)
Theorem long_window_null_read_iff p pblock params n first :
  nForkTwo params <= nextHeight p ->
  nInterval params (nextHeight p) = Ok n -> n <> 0 ->
  Z.rem (nextHeight p) n = 0 \/ fHardFork params (nextHeight p) = true ->
  0 <= i32 (nHeight p - (n - 1)) ->
  CBlockIndex.GetAncestor p (i32 (nHeight p - (n - 1))) = Some first ->
  fPowNoRetargeting params = false ->
  (GetNextWorkRequired (Some p) pblock params = Abort NullDereference <->
   (length (CBlockIndex.chain p) <= Z.to_nat (n * 4))%nat).
Proof.
  intros Hh Hn Hn0 Hpath Hfirst Hanc Hno.
  rewrite <- walk_exhausted.
  rewrite (GetNextWorkRequired_retarget p pblock params n Hn Hn0 Hpath).
  unfold retarget, assert.
  destruct (Z.geb_spec (i32 (nHeight p - (n - 1))) 0) as [_ | ?]; [| lia].
  cbn [bind]. rewrite Hanc. cbn [assert_ptr bind]. rewrite Hno.
  unfold measured_timespan.
  destruct (Z.geb_spec (nextHeight p) (nForkTwo params)) as [_ | ?]; [| lia].
  destruct (CBlockIndex.walk (Z.to_nat (n * 4)) (Some p)) as [anc |]; cbn [deref bind].
  - split; [| discriminate].
    unfold Retarget, div.
    destruct (u64 (nTargetTimespan params (nextHeight p)) =? 0); cbn [bind]; discriminate.
  - split; reflexivity.
Qed.

(** A retarget returns a result as soon as its assertions hold and, from
    [nForkTwo] on, the chain has more than [nInterval * 4] blocks. *)
Lemma retarget_returns_if_deep p pblock params n first :
  nInterval params (nextHeight p) = Ok n -> n <> 0 ->
  Z.rem (nextHeight p) n = 0 \/ fHardFork params (nextHeight p) = true ->
  0 <= i32 (nHeight p - (n - 1)) ->
  CBlockIndex.GetAncestor p (i32 (nHeight p - (n - 1))) = Some first ->
  (nForkTwo params <= nextHeight p ->
   (Z.to_nat (n * 4) < length (CBlockIndex.chain p))%nat) ->
  exists r, GetNextWorkRequired (Some p) pblock params = Ok r.
Proof.
  intros Hn Hn0 Hpath Hfirst Hanc Hdeep.
  pose proof (nInterval_nonzero_timespan _ _ _ Hn Hn0) as HT.
  rewrite (GetNextWorkRequired_retarget p pblock params n Hn Hn0 Hpath).
  unfold retarget, assert.
  destruct (Z.geb_spec (i32 (nHeight p - (n - 1))) 0) as [_ | ?]; [| lia].
  cbn [bind]. rewrite Hanc. cbn [assert_ptr bind].
  destruct (fPowNoRetargeting params); [eexists; reflexivity |].
  assert (Hm : exists a, measured_timespan p first params (nextHeight p)
                           (nTargetTimespan params (nextHeight p)) n = Ok a).
  { unfold measured_timespan.
    destruct (Z.geb_spec (nextHeight p) (nForkTwo params)) as [Hge | _];
      [| eexists; reflexivity].
    specialize (Hdeep Hge).
    destruct (CBlockIndex.walk (Z.to_nat (n * 4)) (Some p)) as [anc |] eqn:Hw.
    - cbn [deref bind]. eexists. reflexivity.
    - apply walk_exhausted in Hw. lia. }
  destruct Hm as [a ->]. cbn [bind]. unfold Retarget, div.
  destruct (Z.eqb_spec (u64 (nTargetTimespan params (nextHeight p))) 0) as [Hz | _].
  - exfalso. apply HT. apply u64_int_zero; [apply nTargetTimespan_int_range | exact Hz].
  - cbn [bind]. eexists. reflexivity.
Qed.

(** ** What is returned passes the range check *)

Lemma SetCompact_lor c k :
  0 <= c < 2 ^ 23 -> 0 <= k -> k <= 32 \/ (c < 2 ^ 16 /\ k <= 33) ->
  SetCompact (Z.lor c (Z.shiftl k 24)) =
    (compact_value (Z.lor c (Z.shiftl k 24)), false, false).
Proof.
  intros Hc Hk Hsize.
  destruct (compact_fields c k Hc Hk) as (Hsz & Hw & Hsign).
  unfold compact_value, SetCompact. cbv zeta. rewrite Hsz, Hw, Hsign. cbn [fst].
  rewrite Z.eqb_refl. cbn [negb]. rewrite andb_false_r.
  f_equal.
  destruct (Z.gtb_spec k 34); [lia |].
  destruct (Z.gtb_spec k 33); [lia |].
  rewrite andb_false_r. cbn [orb].
  destruct (Z.gtb_spec k 32) as [Hk33 | _]; [| rewrite andb_false_r; apply andb_false_r].
  destruct (Z.leb_spec k 3); [lia |].
  destruct (Z.gtb_spec c 0xffff); [lia |]. apply andb_false_r.
Qed.

(** What [GetCompact] encodes decodes without the negative and the overflow
    flag. *)
Lemma SetCompact_GetCompact x :
  uint256_range x ->
  SetCompact (GetCompact x) = (compact_value (GetCompact x), false, false).
Proof.
  intros Hx.
  pose proof (mantissa24_range x Hx) as Hm.
  destruct (byte_length_spec x Hx) as (Hn & _ & _).
  rewrite (GetCompact_eq x Hx).
  generalize dependent (mantissa24 x). intros m Hm.
  generalize dependent ((bits x + 7) / 8). intros n Hn.
  destruct (Z.ltb_spec m (2 ^ 23)).
  - apply SetCompact_lor; lia.
  - assert (0 <= m / 2 ^ 8 < 2 ^ 16).
    { split; [apply Z.div_pos; lia | apply Z.div_lt_upper_bound; lia]. }
    apply SetCompact_lor; lia.
Qed.

Lemma CheckProofOfWork_decoded hash nBits params v :
  SetCompact nBits = (v, false, false) ->
  0 < v <= UintToArith256 (powLimit params) ->
  CheckProofOfWork hash nBits params = (UintToArith256 hash <=? v).
Proof.
  intros Hdec Hv. unfold CheckProofOfWork. rewrite Hdec. cbn [orb].
  destruct (Z.eqb_spec v 0); [lia |]. cbn [orb].
  destruct (Z.gtb_spec v (UintToArith256 (powLimit params))); [lia |].
  destruct (Z.gtb_spec (UintToArith256 hash) v);
    destruct (Z.leb_spec (UintToArith256 hash) v); reflexivity || lia.
Qed.

Lemma CheckProofOfWork_true_decoded hash nBits params :
  CheckProofOfWork hash nBits params = true ->
  SetCompact nBits = (compact_value nBits, false, false) /\
  0 < compact_value nBits <= UintToArith256 (powLimit params) /\
  UintToArith256 hash <= compact_value nBits.
Proof.
  pose proof (compact_value_nonneg nBits) as Hnn.
  unfold CheckProofOfWork, compact_value in *.
  destruct (SetCompact nBits) as [[v neg] ovf]. cbn [fst] in *.
  destruct neg; [discriminate |].
  destruct ovf; [rewrite orb_true_r; discriminate |].
  cbn [orb]. rewrite orb_false_r.
  destruct (Z.eqb_spec v 0); [discriminate |]. cbn [orb].
  destruct (Z.gtb_spec v (UintToArith256 (powLimit params))); [discriminate |].
  destruct (Z.gtb_spec (UintToArith256 hash) v); [discriminate |].
  intros _. repeat split; lia.
Qed.

Lemma mul_le_through a b c t : 0 <= t -> a <= b -> b * t <= c -> a * t <= c.
Proof.
  intros Ht Hab Hbc. eapply Z.le_trans; [| exact Hbc].
  apply Z.mul_le_mono_nonneg_r; assumption.
Qed.

(** What the rescaling returns: the compact form of a magnitude that is at
    most [powLimit] and, times the target timespan, at most the old target
    times the timespan measured; wrap-around of the 256 bits only makes it
    smaller. *)
Lemma Retarget_encodes params nBits a T r :
  Retarget params nBits a T = Ok r ->
  exists y, 0 <= y <= UintToArith256 (powLimit params) /\ r = GetCompact y /\
            y * u64 T <= compact_value nBits * u32 a.
Proof.
  unfold Retarget, div.
  destruct (Z.eqb_spec (u64 T) 0) as [? | Hd]; cbn [bind]; [discriminate |].
  assert (HT : 0 < u64 T).
  { pose proof (Z.mod_pos_bound T (2 ^ 64) ltac:(lia)). unfold u64, unsigned in *. lia. }
  assert (Ha : 0 <= u32 a).
  { pose proof (Z.mod_pos_bound a (2 ^ 32) ltac:(lia)). unfold u32, unsigned. lia. }
  assert (HL : 0 <= UintToArith256 (powLimit params)).
  { pose proof (UintToArith256_range (powLimit params)) as HL.
    unfold uint256_range in HL. lia. }
  pose proof (compact_value_nonneg nBits) as Hold.
  generalize dependent (UintToArith256 (powLimit params)). intros L HL.
  generalize dependent (compact_value nBits). intros old Hold.
  generalize dependent (u64 T). intros t _ HT.
  generalize dependent (u32 a). intros a32 Ha.
  assert (Hq : forall x, 0 <= x -> 0 <= mul32 x a32 / t /\ mul32 x a32 / t * t <= x * a32).
  { intros x Hx. unfold mul32.
    pose proof (u256_le (x * a32) ltac:(apply Z.mul_nonneg_nonneg; lia)) as Hu.
    generalize dependent (u256 (x * a32)). intros w Hw.
    split; [apply Z.div_pos; lia |].
    pose proof (Z.mul_div_le w t HT). lia. }
  intros [= <-].
  assert (Hfinal : forall w, 0 <= w -> w * t <= old * a32 ->
            exists y, 0 <= y <= L /\
                      GetCompact (if w >? L then L else w) = GetCompact y /\
                      y * t <= old * a32).
  { intros w Hw Hb. destruct (Z.gtb_spec w L).
    - exists L. split; [lia |]. split; [reflexivity |].
      apply (mul_le_through L w); lia.
    - exists w. split; [lia |]. split; [reflexivity | exact Hb]. }
  destruct (fShift params old).
  - unfold shr, shl. rewrite Z.shiftr_div_pow2, Z.shiftl_mul_pow2 by lia.
    change (2 ^ 1) with 2.
    assert (Hhalf : 0 <= old / 2) by (apply Z.div_pos; lia).
    destruct (Hq (old / 2) Hhalf) as [Hq0 Hq1].
    pose proof (Z.mul_div_le old 2 ltac:(lia)) as H2.
    generalize dependent (mul32 (old / 2) a32 / t). intros q Hq0 Hq1.
    pose proof (u256_le (q * 2) ltac:(lia)) as Hu.
    apply Hfinal; [lia |].
    apply (mul_le_through _ (q * 2)); [lia | lia |].
    assert (Hh : old / 2 * a32 * 2 <= old * a32).
    { replace (old / 2 * a32 * 2) with (2 * (old / 2) * a32) by ring.
      apply Z.mul_le_mono_nonneg_r; lia. }
    replace (q * 2 * t) with (q * t * 2) by ring. lia.
  - destruct (Hq old Hold) as [Hq0 Hq1]. apply Hfinal; assumption.
Qed.

Lemma GetNextWorkRequired_result_cases p pblock params r :
  GetNextWorkRequired (Some p) pblock params = Ok r ->
  (exists b, In b (CBlockIndex.chain p) /\ r = nBits b) \/
  (exists y, 0 <= y <= UintToArith256 (powLimit params) /\ r = GetCompact y).
Proof.
  unfold GetNextWorkRequired. cbn [assert_ptr bind].
  destruct (nInterval params (nextHeight p)) as [n | f]; cbn [bind]; [| discriminate].
  destruct (rem_int64 (nextHeight p) n) as [m | f]; cbn [bind]; [| discriminate].
  pose proof (UintToArith256_range (powLimit params)) as HL. unfold uint256_range in HL.
  destruct (negb (m =? 0) && negb (fHardFork params (nextHeight p))).
  - unfold keep_difficulty.
    destruct (fPowAllowMinDifficultyBlocks params);
      [| intros [= <-]; left; exists p; split; [apply chain_head | reflexivity]].
    match goal with |- context [if ?b then _ else _] => destruct b end; intros [= <-].
    + right. eexists. split; [| reflexivity]. lia.
    + left. eexists. split; [apply last_non_special_in_chain | reflexivity].
  - unfold retarget.
    destruct (assert _) as [[] | f]; cbn [bind]; [| discriminate].
    destruct (assert_ptr _) as [first | f]; cbn [bind]; [| discriminate].
    destruct (fPowNoRetargeting params);
      [intros [= <-]; left; exists p; split; [apply chain_head | reflexivity] |].
    destruct (measured_timespan _ _ _ _ _ _) as [a | f]; cbn [bind]; [| discriminate].
    intros Hr. destruct (Retarget_encodes _ _ _ _ _ Hr) as (y & Hy & -> & _).
    right. exists y. split; [exact Hy | reflexivity].
Qed.

(** X9: the retargeter keeps the chain acceptable to the validator: when
    the bits of every block of the chain pass [CheckProofOfWork] for some
    hash, the bits returned for the next block decode without a flag to at
    most [powLimit], so that, unless they decode to zero,
    [CheckProofOfWork] accepts exactly the hashes at most the target. *)
Theorem next_work_passes_range_check p pblock params r :
  (forall b, In b (CBlockIndex.chain p) ->
     exists hash, CheckProofOfWork hash (nBits b) params = true) ->
  GetNextWorkRequired (Some p) pblock params = Ok r ->
  compact_value r <> 0 ->
  forall hash, CheckProofOfWork hash r params = (UintToArith256 hash <=? compact_value r).
Proof.
  intros Hchain Hr Hnz hash.
  pose proof (compact_value_nonneg r) as Hnn.
  destruct (GetNextWorkRequired_result_cases p pblock params r Hr)
    as [(b & Hb & ->) | (y & Hy & ->)].
  - destruct (Hchain b Hb) as [h0 Hok].
    destruct (CheckProofOfWork_true_decoded _ _ _ Hok) as (Hdec & Hrange & _).
    apply (CheckProofOfWork_decoded hash (nBits b) params _ Hdec Hrange).
  - pose proof (UintToArith256_range (powLimit params)) as HL.
    assert (Hyr : uint256_range y) by (unfold uint256_range in *; lia).
    pose proof (compact_value_GetCompact_le y Hyr) as Hle.
    apply (CheckProofOfWork_decoded hash (GetCompact y) params _ (SetCompact_GetCompact y Hyr)).
    lia.
Qed.

(** X10: [CheckProofOfWork] is monotone: bits that are accepted for a hash
    are accepted for every smaller hash, and under every larger
    [powLimit]. *)
Theorem CheckProofOfWork_monotone hash hash' nBits params params' :
  CheckProofOfWork hash nBits params = true ->
  UintToArith256 hash' <= UintToArith256 hash ->
  UintToArith256 (powLimit params) <= UintToArith256 (powLimit params') ->
  CheckProofOfWork hash' nBits params' = true.
Proof.
  intros Hok Hh HL.
  destruct (CheckProofOfWork_true_decoded _ _ _ Hok) as (Hdec & Hrange & Hle).
  rewrite (CheckProofOfWork_decoded hash' nBits params' _ Hdec) by lia.
  apply Z.leb_le. lia.
Qed.

(** ** How far one retarget moves the target *)

Lemma timespan_limits_fork_two params h :
  nForkTwo params <= h -> timespan_limits params h 18900 = (17331, 20610).
Proof.
  intros Hh. unfold timespan_limits.
  destruct (Z.geb_spec h (nForkTwo params)); [| lia].
  destruct ((h >=? nForkOne params) && (h <? nForkTwo params)); reflexivity.
Qed.

Lemma timespan_limits_fork_one params h :
  nForkOne params <= h < nForkTwo params ->
  timespan_limits params h 75600 = (53454, 106920).
Proof.
  intros Hh. unfold timespan_limits.
  destruct (Z.geb_spec h (nForkOne params)); [| lia].
  destruct (Z.ltb_spec h (nForkTwo params)); [| lia].
  destruct (Z.geb_spec h (nForkTwo params)); [lia |]. reflexivity.
Qed.

Lemma timespan_limits_base params h T :
  h < nForkOne params -> h < nForkTwo params -> 0 <= T < 2 ^ 29 ->
  timespan_limits params h T = (T ÷ 4, T * 4).
Proof.
  intros H1 H2 HT. unfold timespan_limits.
  destruct (Z.geb_spec h (nForkOne params)); [lia |].
  destruct (Z.geb_spec h (nForkTwo params)); [lia |]. cbn [andb].
  rewrite i32_id by (unfold int_range; lia). reflexivity.
Qed.

Lemma GetNextWorkRequired_retarget_inv p pblock params n r :
  nInterval params (nextHeight p) = Ok n -> n <> 0 ->
  Z.rem (nextHeight p) n = 0 \/ fHardFork params (nextHeight p) = true ->
  fPowNoRetargeting params = false ->
  GetNextWorkRequired (Some p) pblock params = Ok r ->
  exists a,
    Retarget params (nBits p)
      (limit_timespan params (nextHeight p) (nTargetTimespan params (nextHeight p)) a)
      (nTargetTimespan params (nextHeight p)) = Ok r.
Proof.
  intros Hn Hn0 Hpath Hno.
  rewrite (GetNextWorkRequired_retarget p pblock params n Hn Hn0 Hpath).
  unfold retarget.
  destruct (assert _) as [[] | f]; cbn [bind]; [| discriminate].
  destruct (assert_ptr _) as [first | f]; cbn [bind]; [| discriminate].
  rewrite Hno.
  destruct (measured_timespan _ _ _ _ _ _) as [a | f]; cbn [bind]; [| discriminate].
  intros Hr. exists a. exact Hr.
Qed.

Lemma Retarget_limited_step params nBits a T r hi :
  0 < T -> int_range T -> 0 <= a <= hi -> hi < 2 ^ 32 ->
  Retarget params nBits a T = Ok r ->
  compact_value r * T <= compact_value nBits * hi.
Proof.
  intros HT HTr Ha Hhi Hr.
  destruct (Retarget_encodes _ _ _ _ _ Hr) as (y & Hy & -> & Hstep).
  assert (Hu64 : u64 T = T).
  { unfold u64, unsigned. apply Z.mod_small. unfold int_range in HTr. lia. }
  rewrite Hu64, u32_id in Hstep by (unfold uint32_range; lia).
  assert (Hyr : uint256_range y).
  { pose proof (UintToArith256_range (powLimit params)). unfold uint256_range in *. lia. }
  pose proof (compact_value_GetCompact_le y Hyr) as Hle.
  pose proof (compact_value_nonneg nBits) as Hold.
  apply (mul_le_through _ y); [lia | lia |].
  eapply Z.le_trans; [exact Hstep |].
  apply Z.mul_le_mono_nonneg_l; lia.
Qed.

(** X11: one retarget eases the target by a bounded factor: the target
    returned is at most 494/453 of the previous one from [nForkTwo] on, at
    most 99/70 of it between the forks, and at most four times it before
    [nForkOne]. *)
Theorem retarget_eases_by_bounded_factor p pblock params n r :
  let h := nextHeight p in
  let T := nTargetTimespan params h in
  nInterval params h = Ok n -> n <> 0 ->
  Z.rem h n = 0 \/ fHardFork params h = true ->
  fPowNoRetargeting params = false ->
  GetNextWorkRequired (Some p) pblock params = Ok r ->
  (nForkTwo params <= h ->
   compact_value r * 453 <= compact_value (nBits p) * 494) /\
  (nForkOne params <= h < nForkTwo params ->
   compact_value r * 70 <= compact_value (nBits p) * 99) /\
  (h < nForkOne params -> h < nForkTwo params -> 0 < T < 2 ^ 29 ->
   compact_value r <= compact_value (nBits p) * 4).
Proof.
  intros h T Hn Hn0 Hpath Hno Hr.
  destruct (GetNextWorkRequired_retarget_inv p pblock params n r Hn Hn0 Hpath Hno Hr)
    as [a Ha].
  fold h in Ha. fold T in Ha.
  pose proof (compact_value_nonneg (nBits p)) as Hold.
  pose proof (compact_value_nonneg r) as Hnew.
  split; [| split].
  - intros Hh. assert (HT : T = 18900) by (apply nTargetTimespan_fork_two; exact Hh).
    rewrite HT in Ha.
    pose proof (limit_timespan_between params h 18900 a _ _
                  (timespan_limits_fork_two params h Hh) ltac:(lia)) as Hb.
    pose proof (Retarget_limited_step params (nBits p)
                  (limit_timespan params h 18900 a) 18900 r 20610) as Hs.
    specialize (Hs ltac:(lia) ltac:(unfold int_range; lia) ltac:(lia) ltac:(lia) Ha).
    lia.
  - intros Hh. assert (HT : T = 75600) by (apply nTargetTimespan_fork_one; exact Hh).
    rewrite HT in Ha.
    pose proof (limit_timespan_between params h 75600 a _ _
                  (timespan_limits_fork_one params h Hh) ltac:(lia)) as Hb.
    pose proof (Retarget_limited_step params (nBits p)
                  (limit_timespan params h 75600 a) 75600 r 106920) as Hs.
    specialize (Hs ltac:(lia) ltac:(unfold int_range; lia) ltac:(lia) ltac:(lia) Ha).
    lia.
  - intros H1 H2 HT.
    assert (Hq : 0 <= T ÷ 4 <= T * 4).
    { rewrite Z.quot_div_nonneg by lia.
      pose proof (Z.div_pos T 4 ltac:(lia) ltac:(lia)).
      pose proof (Z.div_le_upper_bound T 4 T ltac:(lia) ltac:(lia)). lia. }
    pose proof (limit_timespan_between params h T a _ _
                  (timespan_limits_base params h T H1 H2 ltac:(lia)) ltac:(lia)) as Hb.
    pose proof (Retarget_limited_step params (nBits p)
                  (limit_timespan params h T a) T r (T * 4)) as Hs.
    specialize (Hs ltac:(lia) ltac:(unfold int_range; lia) ltac:(lia) ltac:(lia) Ha).
    replace (compact_value (nBits p) * (T * 4)) with (compact_value (nBits p) * 4 * T)
      in Hs by ring.
    apply Z.mul_le_mono_pos_r in Hs; lia.
Qed.

(** ** Well-formed chains *)

Lemma well_formed_length p :
  well_formed_chain p -> Z.of_nat (length (CBlockIndex.chain p)) = nHeight p + 1.
Proof.
  induction p as [h tm b | h tm b q IH] using CBlockIndex_rect_chain.
  - cbn. intros ->. reflexivity.
  - cbn [well_formed_chain CBlockIndex.chain length pprev nHeight CBlockIndex.pprev
         CBlockIndex.nHeight].
    intros [Hh Hq]. specialize (IH Hq). lia.
Qed.

Lemma well_formed_height_nonneg p : well_formed_chain p -> 0 <= nHeight p.
Proof.
  intros H. pose proof (well_formed_length p H) as Hl.
  destruct p as [h tm b pp]. cbn [CBlockIndex.chain length] in Hl. lia.
Qed.

Lemma well_formed_walk k p :
  well_formed_chain p -> (k <= Z.to_nat (nHeight p))%nat ->
  exists q, CBlockIndex.walk k (Some p) = Some q /\
            nHeight q = nHeight p - Z.of_nat k /\
            In q (CBlockIndex.chain p).
Proof.
  revert p. induction k as [| k IH]; intros p Hwf Hk.
  - exists p. split; [destruct p; reflexivity |]. split; [cbn; lia | apply chain_head].
  - destruct p as [h tm b [q |]];
      cbn [well_formed_chain pprev nHeight CBlockIndex.pprev CBlockIndex.nHeight] in *.
    + destruct Hwf as [Hh Hq].
      pose proof (well_formed_height_nonneg q Hq) as Hq0.
      destruct (IH q Hq ltac:(lia)) as (a & Hw & Ha & Hin).
      exists a. cbn [CBlockIndex.walk CBlockIndex.pprev].
      split; [exact Hw |]. split; [lia |]. right. exact Hin.
    + subst h. cbn in Hk. lia.
Qed.

Lemma well_formed_GetAncestor p height :
  well_formed_chain p -> 0 <= height <= nHeight p ->
  exists q, CBlockIndex.GetAncestor p height = Some q /\ nHeight q = height /\
            In q (CBlockIndex.chain p).
Proof.
  intros Hwf Hh. unfold CBlockIndex.GetAncestor.
  destruct (Z.gtb_spec height (nHeight p)); [lia |].
  destruct (Z.ltb_spec height 0); [lia |]. cbn [orb].
  destruct (well_formed_walk (Z.to_nat (nHeight p - height)) p Hwf ltac:(lia))
    as (q & Hw & Hq & Hin).
  exists q. split; [exact Hw |]. split; [lia | exact Hin].
Qed.

(** X8: on a well-formed chain a retarget with a positive interval returns
    a result when the height of the new block is at least [nInterval] and,
    from [nForkTwo] on, above [nInterval * 4]. *)
Theorem retarget_returns_on_well_formed_chain p pblock params n :
  well_formed_chain p ->
  int_range (nHeight p + 1) ->
  nInterval params (nextHeight p) = Ok n -> 0 < n ->
  Z.rem (nextHeight p) n = 0 \/ fHardFork params (nextHeight p) = true ->
  n <= nextHeight p ->
  (nForkTwo params <= nextHeight p -> n * 4 < nextHeight p) ->
  exists r, GetNextWorkRequired (Some p) pblock params = Ok r.
Proof.
  intros Hwf Hr Hn Hn0 Hpath Hge Hdeep.
  pose proof (well_formed_height_nonneg p Hwf) as Hp0.
  assert (Hh : nextHeight p = nHeight p + 1) by (apply i32_id; exact Hr).
  rewrite Hh in Hge, Hdeep.
  assert (Hi : i32 (nHeight p - (n - 1)) = nHeight p - (n - 1)).
  { apply i32_id. unfold int_range in *. lia. }
  destruct (well_formed_GetAncestor p (nHeight p - (n - 1)) Hwf ltac:(lia))
    as (first & Hfirst & _).
  apply (retarget_returns_if_deep p pblock params n first); try assumption.
  - lia.
  - rewrite Hi. lia.
  - rewrite Hi. exact Hfirst.
  - intros Hf2. rewrite Hh in Hf2. specialize (Hdeep Hf2).
    pose proof (well_formed_length p Hwf). lia.
Qed.

Lemma limit_timespan_id params h T a lo hi :
  timespan_limits params h T = (lo, hi) -> lo <= a <= hi ->
  limit_timespan params h T a = a.
Proof.
  intros Hl Ha. unfold limit_timespan. rewrite Hl.
  destruct (Z.ltb_spec a lo); [lia |].
  destruct (Z.gtb_spec a hi); [lia | reflexivity].
Qed.

(** X12: the first block of the short window is [nInterval - 1] blocks
    before the previous block: on a well-formed chain whose blocks are
    exactly [dt] seconds apart, a retarget before [nForkTwo] rescales by the
    limited value of [(nInterval - 1) * dt], not of [nInterval * dt]. *)
Theorem short_window_spans_interval_minus_one p pblock params n t0 dt :
  let h := nextHeight p in
  let T := nTargetTimespan params h in
  well_formed_chain p ->
  int_range (nHeight p + 1) ->
  (forall b, In b (CBlockIndex.chain p) -> CBlockIndex.GetBlockTime b = t0 + dt * nHeight b) ->
  nInterval params h = Ok n -> 0 < n ->
  Z.rem h n = 0 \/ fHardFork params h = true ->
  n <= h -> h < nForkTwo params ->
  fPowNoRetargeting params = false ->
  GetNextWorkRequired (Some p) pblock params =
    Retarget params (nBits p) (limit_timespan params h T ((n - 1) * dt)) T.
Proof.
  intros h T Hwf Hr Htimes Hn Hn0 Hpath Hge Hf2 Hno.
  pose proof (well_formed_height_nonneg p Hwf) as Hp0.
  assert (Hh : h = nHeight p + 1) by (apply i32_id; exact Hr).
  assert (Hi : i32 (nHeight p - (n - 1)) = nHeight p - (n - 1)).
  { apply i32_id. unfold int_range in *. lia. }
  destruct (well_formed_GetAncestor p (nHeight p - (n - 1)) Hwf ltac:(lia))
    as (first & Hfirst & Hheight & Hin).
  apply (GetNextWorkRequired_rescales p pblock params n first); try assumption.
  - lia.
  - rewrite Hi. lia.
  - rewrite Hi. exact Hfirst.
  - unfold measured_timespan. fold h.
    destruct (Z.geb_spec h (nForkTwo params)); [lia |].
    rewrite (Htimes p (chain_head p)), (Htimes first Hin), Hheight.
    f_equal. ring.
Qed.

Lemma even_half x : Z.even x = true -> x / 2 * 2 = x.
Proof.
  intros He. apply Z.even_spec in He. destruct He as [k ->].
  replace (2 * k) with (k * 2) by ring. rewrite Z.div_mul by lia. reflexivity.
Qed.

(** X13: a retarget whose measured timespan equals the target timespan
    returns the previous block's bits unchanged, when these are in the form
    [GetCompact] produces, decode to an even target at most [powLimit], and
    the product with the timespan fits 256 bits. *)
Theorem measured_equal_target_keeps_bits p pblock params n first :
  let h := nextHeight p in
  let T := nTargetTimespan params h in
  let target := compact_value (nBits p) in
  nInterval params h = Ok n -> n <> 0 ->
  Z.rem h n = 0 \/ fHardFork params h = true ->
  0 <= i32 (nHeight p - (n - 1)) ->
  CBlockIndex.GetAncestor p (i32 (nHeight p - (n - 1))) = Some first ->
  fPowNoRetargeting params = false ->
  measured_timespan p first params h T n = Ok T ->
  (h < nForkOne params -> h < nForkTwo params -> 0 < T < 2 ^ 29) ->
  GetCompact target = nBits p ->
  target <= UintToArith256 (powLimit params) ->
  Z.even target = true ->
  target * T < 2 ^ 256 ->
  GetNextWorkRequired (Some p) pblock params = Ok (nBits p).
Proof.
  intros h T target Hn Hn0 Hpath Hfirst Hanc Hno Hm Hbase Hcanon Hle Heven Hfit.
  rewrite (GetNextWorkRequired_rescales p pblock params n first T Hn Hn0 Hpath Hfirst Hanc Hno Hm).
  fold h. fold T.
  pose proof (nTargetTimespan_int_range params h) as HTr. fold T in HTr.
  assert (HT : 0 < T /\ limit_timespan params h T T = T).
  { destruct (Z.lt_ge_cases h (nForkTwo params)) as [H2 | H2].
    - destruct (Z.lt_ge_cases h (nForkOne params)) as [H1 | H1].
      + specialize (Hbase H1 H2). split; [lia |].
        apply (limit_timespan_id params h T T _ _
                 (timespan_limits_base params h T H1 H2 ltac:(lia))).
        rewrite Z.quot_div_nonneg by lia.
        pose proof (Z.div_le_upper_bound T 4 T ltac:(lia) ltac:(lia)). lia.
      + assert (HT : T = 75600) by (apply nTargetTimespan_fork_one; lia).
        rewrite HT. split; [lia |].
        apply (limit_timespan_id params h 75600 75600 _ _
                 (timespan_limits_fork_one params h ltac:(lia))). lia.
    - assert (HT : T = 18900) by (apply nTargetTimespan_fork_two; lia).
      rewrite HT. split; [lia |].
      apply (limit_timespan_id params h 18900 18900 _ _
               (timespan_limits_fork_two params h ltac:(lia))). lia. }
  destruct HT as [HT ->].
  pose proof (compact_value_nonneg (nBits p)) as Hnn. fold target in Hnn.
  pose proof (UintToArith256_range (powLimit params)) as HL.
  unfold Retarget. fold target.
  rewrite u32_id by (unfold uint32_range, int_range in *; lia).
  assert (Hu64 : u64 T = T).
  { unfold u64, unsigned. apply Z.mod_small. unfold int_range in HTr. lia. }
  rewrite Hu64. unfold div.
  destruct (Z.eqb_spec T 0); [lia |]. cbn [bind].
  pose proof (even_half target Heven) as Hhalf.
  assert (Hfinal : forall x, x = target ->
            Ok (GetCompact (if x >? UintToArith256 (powLimit params)
                            then UintToArith256 (powLimit params) else x)) = Ok (nBits p)).
  { intros x ->.
    destruct (Z.gtb_spec target (UintToArith256 (powLimit params))); [lia |].
    rewrite Hcanon. reflexivity. }
  destruct (fShift params target); apply Hfinal.
  - unfold shr, shl, mul32. rewrite Z.shiftr_div_pow2, Z.shiftl_mul_pow2 by lia.
    change (2 ^ 1) with 2.
    assert (Hh0 : 0 <= target / 2) by (apply Z.div_pos; lia).
    assert (Hprod : 0 <= target / 2 * T <= target * T).
    { split; [apply Z.mul_nonneg_nonneg; lia |].
      apply Z.mul_le_mono_nonneg_r; [lia |]. apply Z.div_le_upper_bound; lia. }
    rewrite (u256_id (target / 2 * T)) by (unfold uint256_range; lia).
    rewrite Z.div_mul by lia. rewrite Hhalf.
    apply u256_id. unfold uint256_range in *. lia.
  - unfold mul32.
    rewrite u256_id by (unfold uint256_range; split; [apply Z.mul_nonneg_nonneg |]; lia).
    apply Z.div_mul. lia.
Qed.

(** ** Further concrete calls *)

Lemma candidate_header_unread_without_min_difficulty_witness :
  GetNextWorkRequired (Some (CBlockIndex.regular 7 0 200 0x1e0ffff0)) (candidate 1500)
    quiet_params =
  GetNextWorkRequired (Some (CBlockIndex.regular 7 0 200 0x1e0ffff0)) (candidate 999999)
    quiet_params.
Proof.
  apply (candidate_header_unread_without_min_difficulty _ _ _ quiet_params). by_computation.
Defined.

Lemma keep_path_returns_bits_of_chain_witness :
  exists r,
    GetNextWorkRequired (Some min_difficulty_tip) (candidate 200) testnet_params = Ok r /\
    (r = GetCompact (UintToArith256 (powLimit testnet_params)) \/
     exists b, In b (CBlockIndex.chain min_difficulty_tip) /\ r = nBits b).
Proof.
  apply (keep_path_returns_bits_of_chain min_difficulty_tip (candidate 200) testnet_params 4);
    by_computation.
Defined.

Lemma min_difficulty_walk_result_witness :
  exists skipped q rest,
    CBlockIndex.chain min_difficulty_tip = skipped ++ q :: rest /\
    GetNextWorkRequired (Some min_difficulty_tip) (candidate 200) testnet_params
      = Ok (nBits q) /\
    Forall (fun b => Z.rem (nHeight b) 4 <> 0 /\
                     nBits b = GetCompact (UintToArith256 (powLimit testnet_params))) skipped /\
    (rest = [] \/ Z.rem (nHeight q) 4 = 0 \/
     nBits q <> GetCompact (UintToArith256 (powLimit testnet_params))).
Proof.
  apply (min_difficulty_walk_result min_difficulty_tip (candidate 200) testnet_params 4);
    by_computation.
Defined.

Lemma no_retargeting_keeps_bits_witness :
  GetNextWorkRequired (Some (CBlockIndex.regular 7 0 200 0x1e0ffff0)) (candidate 1500)
    frozen_params = Ok 0x1e0ffff0 /\
  0x1e0ffff0 = nBits (CBlockIndex.regular 7 0 200 0x1e0ffff0).
Proof.
  split; [by_computation |].
  apply (no_retargeting_keeps_bits (CBlockIndex.regular 7 0 200 0x1e0ffff0)
           (candidate 1500) frozen_params 0x1e0ffff0); by_computation.
Defined.

Lemma retarget_on_short_chain_fails_assertion_witness :
  GetNextWorkRequired (Some (CBlockIndex.regular 1 0 18900 0x1e0ffff0)) (candidate 40000)
    early_fork_params = Abort AssertionFailed.
Proof.
  apply (retarget_on_short_chain_fails_assertion _ _ early_fork_params 4);
    first [by_computation | right; by_computation].
Defined.

Lemma long_window_null_read_iff_witness :
  GetNextWorkRequired (Some (CBlockIndex.regular 15 0 4725 0x1e0ffff0)) (candidate 80000)
    fork_two_params = Abort NullDereference <->
  (length (CBlockIndex.chain (CBlockIndex.regular 15 0 4725 0x1e0ffff0))
   <= Z.to_nat (4 * 4))%nat.
Proof.
  apply (long_window_null_read_iff (CBlockIndex.regular 15 0 4725 0x1e0ffff0)
           (candidate 80000) fork_two_params 4 (CBlockIndex.regular 12 0 4725 0x1e0ffff0));
    first [by_computation | left; by_computation].
Defined.

Lemma retarget_returns_on_well_formed_chain_witness :
  exists r,
    GetNextWorkRequired (Some (CBlockIndex.regular 19 0 4000 0x1e0ffff0)) (candidate 80000)
      fork_two_params = Ok r.
Proof.
  apply (retarget_returns_on_well_formed_chain (CBlockIndex.regular 19 0 4000 0x1e0ffff0)
           (candidate 80000) fork_two_params 4);
    first [by_computation | left; by_computation | intros _; by_computation].
Defined.

Lemma regular_chain_passes_check_example :
  forall b, In b (CBlockIndex.chain (CBlockIndex.regular 7 0 200 0x1e0ffff0)) ->
    exists hash, CheckProofOfWork hash (nBits b) quiet_params = true.
Proof.
  intros b Hb. vm_compute in Hb.
  repeat (destruct Hb as [<- | Hb]; [exists 0; by_computation |]). destruct Hb.
Defined.

Lemma next_work_passes_range_check_witness :
  CheckProofOfWork (2 ^ 200) 0x1e0ffff0 quiet_params
    = (UintToArith256 (2 ^ 200) <=? compact_value 0x1e0ffff0).
Proof.
  apply (next_work_passes_range_check (CBlockIndex.regular 7 0 200 0x1e0ffff0)
           (candidate 1500) quiet_params 0x1e0ffff0).
  - exact regular_chain_passes_check_example.
  - by_computation.
  - by_computation.
Defined.

Lemma CheckProofOfWork_monotone_witness :
  CheckProofOfWork (2 ^ 100) 0x1d00ffff main_params = true.
Proof.
  apply (CheckProofOfWork_monotone (2 ^ 200) (2 ^ 100) 0x1d00ffff
           {| powLimit := 2 ^ 224; nPowTargetTimespan := 302400; nPowTargetSpacing := 150;
              fPowAllowMinDifficultyBlocks := false; fPowNoRetargeting := false;
              nForkOne := 33000; nForkTwo := 87948 |} main_params); by_computation.
Defined.

Lemma retarget_eases_by_bounded_factor_witness :
  GetNextWorkRequired (Some (CBlockIndex.regular 19 0 6000 0x1e0ffff0)) (candidate 130000)
    fork_two_params = Ok 0x1e0fffff /\
  compact_value 0x1e0fffff * 453
    <= compact_value (nBits (CBlockIndex.regular 19 0 6000 0x1e0ffff0)) * 494.
Proof.
  split; [by_computation |].
  refine (proj1 (retarget_eases_by_bounded_factor
                   (CBlockIndex.regular 19 0 6000 0x1e0ffff0)
                   (candidate 130000) fork_two_params 4 0x1e0fffff _ _ _ _ _) _);
    first [by_computation | left; by_computation].
Defined.

Lemma regular_chain_times_example :
  forall b, In b (CBlockIndex.chain (CBlockIndex.regular 7 0 150 0x1e0ffff0)) ->
    CBlockIndex.GetBlockTime b = 0 + 150 * nHeight b.
Proof.
  intros b Hb. vm_compute in Hb.
  repeat (destruct Hb as [<- | Hb]; [by_computation |]). destruct Hb.
Defined.

Lemma short_window_spans_interval_minus_one_witness :
  GetNextWorkRequired (Some (CBlockIndex.regular 7 0 150 0x1e0ffff0)) (candidate 1200)
    quiet_params =
  Retarget quiet_params (nBits (CBlockIndex.regular 7 0 150 0x1e0ffff0))
    (limit_timespan quiet_params (nextHeight (CBlockIndex.regular 7 0 150 0x1e0ffff0))
       (nTargetTimespan quiet_params (nextHeight (CBlockIndex.regular 7 0 150 0x1e0ffff0)))
       ((4 - 1) * 150))
    (nTargetTimespan quiet_params (nextHeight (CBlockIndex.regular 7 0 150 0x1e0ffff0))).
Proof.
  apply (short_window_spans_interval_minus_one (CBlockIndex.regular 7 0 150 0x1e0ffff0)
           (candidate 1200) quiet_params 4 0 150);
    first [exact regular_chain_times_example | by_computation | left; by_computation].
Defined.

Lemma measured_equal_target_keeps_bits_witness :
  GetNextWorkRequired (Some (CBlockIndex.regular 7 0 200 0x1e0ffff0)) (candidate 1500)
    quiet_params = Ok (nBits (CBlockIndex.regular 7 0 200 0x1e0ffff0)).
Proof.
  apply (measured_equal_target_keeps_bits (CBlockIndex.regular 7 0 200 0x1e0ffff0)
           (candidate 1500) quiet_params 4 (CBlockIndex.regular 4 0 200 0x1e0ffff0));
    first [by_computation | left; by_computation | intros _ _; by_computation].
Defined.

(** ** The testnet walk stays within the interval *)

Lemma last_non_special_height p n l :
  well_formed_chain p -> 0 < n ->
  nHeight p - Z.rem (nHeight p) n <= nHeight (last_non_special p n l) <= nHeight p.
Proof.
  intros Hwf Hn.
  induction p as [h tm b | h tm b q IH] using CBlockIndex_rect_chain.
  - cbn in *. subst h. rewrite Z.rem_0_l by lia. lia.
  - cbn [well_formed_chain last_non_special pprev nHeight nBits CBlockIndex.pprev
         CBlockIndex.nHeight CBlockIndex.nBits] in *.
    destruct Hwf as [Hh Hq]. specialize (IH Hq).
    pose proof (well_formed_height_nonneg q Hq) as Hq0.
    pose proof (Z.rem_bound_pos h n ltac:(lia) Hn) as Hb.
    destruct (Z.eqb_spec (Z.rem h n) 0) as [Hrem | Hrem]; cbn [negb andb nHeight
      CBlockIndex.nHeight]; [lia |].
    destruct (b =? l); cbn [nHeight CBlockIndex.nHeight]; [| lia].
    assert (Hrq : Z.rem h n - 1 = Z.rem (nHeight q) n).
    { apply (Z.rem_unique (nHeight q) n (h ÷ n)); [lia | lia |].
      pose proof (Z.quot_rem' h n). lia. }
    lia.
Qed.

(** X14: on a well-formed chain the testnet rule, for a candidate that is
    not late, returns the bits of a block of the current interval: a block
    of the chain at or above the last multiple of [nInterval] that is at
    most the previous block's height, hence fewer than [nInterval] steps
    back. *)
Theorem min_difficulty_walk_stays_in_interval p pblock params n :
  well_formed_chain p ->
  nInterval params (nextHeight p) = Ok n -> 0 < n ->
  Z.rem (nextHeight p) n <> 0 ->
  fHardFork params (nextHeight p) = false ->
  fPowAllowMinDifficultyBlocks params = true ->
  int64_range (nPowTargetSpacing params * 2) ->
  int64_range (CBlockIndex.GetBlockTime p + nPowTargetSpacing params * 2) ->
  CBlockHeader.GetBlockTime pblock <= CBlockIndex.GetBlockTime p + 2 * nPowTargetSpacing params ->
  exists q,
    In q (CBlockIndex.chain p) /\
    GetNextWorkRequired (Some p) pblock params = Ok (nBits q) /\
    nHeight p - Z.rem (nHeight p) n <= nHeight q <= nHeight p /\
    nHeight p - nHeight q < n.
Proof.
  intros Hwf Hn Hn0 Hrem Hfork Hmin Hr1 Hr2 Hearly.
  set (limit := GetCompact (UintToArith256 (powLimit params))).
  exists (last_non_special p n limit).
  split; [apply last_non_special_in_chain |]. split.
  - rewrite (GetNextWorkRequired_keep p pblock params n Hn ltac:(lia) Hrem Hfork).
    unfold keep_difficulty. rewrite Hmin, (i64_id _ Hr1), (i64_id _ Hr2).
    destruct (Z.gtb_spec (CBlockHeader.GetBlockTime pblock)
                (CBlockIndex.GetBlockTime p + nPowTargetSpacing params * 2)); [lia |].
    reflexivity.
  - pose proof (last_non_special_height p n limit Hwf Hn0) as Hh.
    pose proof (well_formed_height_nonneg p Hwf) as Hp0.
    pose proof (Z.rem_bound_pos (nHeight p) n Hp0 Hn0). lia.
Qed.

Lemma min_difficulty_walk_stays_in_interval_witness :
  exists q,
    In q (CBlockIndex.chain (CBlockIndex.regular 6 0 150 0x1e0fffff)) /\
    GetNextWorkRequired (Some (CBlockIndex.regular 6 0 150 0x1e0fffff)) (candidate 1000)
      testnet_params = Ok (nBits q) /\
    nHeight (CBlockIndex.regular 6 0 150 0x1e0fffff)
      - Z.rem (nHeight (CBlockIndex.regular 6 0 150 0x1e0fffff)) 4
      <= nHeight q <= nHeight (CBlockIndex.regular 6 0 150 0x1e0fffff) /\
    nHeight (CBlockIndex.regular 6 0 150 0x1e0fffff) - nHeight q < 4.
Proof.
  apply (min_difficulty_walk_stays_in_interval (CBlockIndex.regular 6 0 150 0x1e0fffff)
           (candidate 1000) testnet_params 4); by_computation.
Defined.

(** ** The bound by [powLimit], the fork heights and the division by the interval *)





Lemma interval_zero_is_unguarded_witness :
  nForkTwo slow_params <= nextHeight (CBlockIndex.regular 15 0 20000 0x1e0ffff0) /\
  nTargetTimespan slow_params (nextHeight (CBlockIndex.regular 15 0 20000 0x1e0ffff0)) = 18900 /\
  18900 < nTargetSpacing slow_params /\
  GetNextWorkRequired (Some (CBlockIndex.regular 15 0 20000 0x1e0ffff0)) (candidate 320000)
    slow_params = Abort DivisionByZero /\
  (GetNextWorkRequired (Some (CBlockIndex.regular 15 0 20000 0x1e0ffff0)) (candidate 320000)
     slow_params = Abort DivisionByZero <->
   nTargetTimespan slow_params (nextHeight (CBlockIndex.regular 15 0 20000 0x1e0ffff0))
     < nTargetSpacing slow_params).
Proof.
  assert (Hs : 0 < nTargetSpacing slow_params) by by_computation.
  assert (HT : 0 <= nTargetTimespan slow_params
                      (nextHeight (CBlockIndex.regular 15 0 20000 0x1e0ffff0)))
    by by_computation.
  assert (Hf : nForkTwo slow_params <= nextHeight (CBlockIndex.regular 15 0 20000 0x1e0ffff0))
    by by_computation.
  assert (Hbig : 18900 < nTargetSpacing slow_params) by by_computation.
  destruct (interval_zero_is_unguarded (CBlockIndex.regular 15 0 20000 0x1e0ffff0)
              (candidate 320000) slow_params Hs HT) as [Hiff Hfork].
  destruct (Hfork Hf) as [H18900 Hfault].
  split; [exact Hf |]. split; [exact H18900 |]. split; [exact Hbig |].
  split; [exact (Hfault Hbig) | exact Hiff].
Defined.

(** ** The two windows and the rescaling, with the widths of the source *)

(** C4: from [nForkTwo] on, the timespan that a retargeting call limits is
    [((short + long) / 2 + 3 * nTargetTimespan) / 4] with truncating
    divisions, where [short] is measured from the ancestor at height
    [nHeight - (nInterval - 1)] and [long] is a quarter of the time since
    the node [nInterval * 4] predecessor steps back, [nInterval] being the
    interval of the short window, when the average [(short + long) / 2] and
    its sum with [3 * nTargetTimespan] fit the [int] the source holds them
    in. *)
Theorem long_window_damping p pblock params n first anc :
  let h := nextHeight p in
  let T := nTargetTimespan params h in
  let shortTimespan := CBlockIndex.GetBlockTime p - CBlockIndex.GetBlockTime first in
  let longTimespan := (CBlockIndex.GetBlockTime p - CBlockIndex.GetBlockTime anc) ÷ 4 in
  let average := (shortTimespan + longTimespan) ÷ 2 in
  let damped := (average + 3 * T) ÷ 4 in
  nForkTwo params <= h ->
  nInterval params h = Ok n -> n <> 0 ->
  Z.rem h n = 0 \/ fHardFork params h = true ->
  fPowNoRetargeting params = false ->
  int_range (nHeight p) ->
  CBlockIndex.GetAncestor p (nHeight p - (n - 1)) = Some first ->
  CBlockIndex.walk (Z.to_nat (n * 4)) (Some p) = Some anc ->
  uint32_range (CBlockIndex.GetBlockTime p) ->
  uint32_range (CBlockIndex.GetBlockTime anc) ->
  int_range average ->
  int_range (average + 3 * T) ->
  T = 18900 /\ n = i32 (18900 ÷ nTargetSpacing params) /\
  measured_timespan p first params h T n = Ok damped /\
  GetNextWorkRequired (Some p) pblock params =
    Retarget params (nBits p) (limit_timespan params h T damped) T.
Proof.
  intros h T shortTimespan longTimespan average damped
    Hh Hn Hn0 Hpath Hno Hrange Hfirst Hanc Htp Hta Havg Hsum.
  assert (HT : T = 18900) by (apply nTargetTimespan_fork_two; exact Hh).
  assert (Hm : measured_timespan p first params h T n = Ok damped).
  { unfold measured_timespan.
    destruct (Z.geb_spec h (nForkTwo params)) as [_ | ?]; [| lia].
    rewrite Hanc. cbn [deref bind].
    fold shortTimespan longTimespan.
    assert (Hl : int_range longTimespan).
    { unfold int_range, uint32_range, longTimespan in *.
      Z.to_euclidean_division_equations. lia. }
    rewrite (i32_id longTimespan Hl). fold average.
    rewrite (i32_id _ Havg).
    rewrite (i32_id (3 * T)) by (unfold int_range; lia).
    rewrite (i32_id _ Hsum).
    reflexivity. }
  pose proof (GetAncestor_height_bounds _ _ _ Hfirst) as Hb.
  assert (Hi : i32 (nHeight p - (n - 1)) = nHeight p - (n - 1)).
  { apply i32_id. unfold int_range in *. lia. }
  split; [exact HT |]. split.
  { unfold nInterval in Hn. fold T in Hn. rewrite HT in Hn.
    apply div_int_inv in Hn. apply Hn. }
  split; [exact Hm |].
  apply (GetNextWorkRequired_rescales p pblock params n first damped);
    try assumption; rewrite Hi; [lia | exact Hfirst].
Qed.

Lemma long_window_damping_witness :
  measured_timespan (CBlockIndex.regular 19 0 4000 0x1e0ffff0)
    (CBlockIndex.regular 16 0 4000 0x1e0ffff0) fork_two_params 20 18900 4
  = Ok (((12000 + 64000 ÷ 4) ÷ 2 + 3 * 18900) ÷ 4).
Proof.
  refine (proj1 (proj2 (proj2 (long_window_damping
            (CBlockIndex.regular 19 0 4000 0x1e0ffff0) (candidate 80000)
            fork_two_params 4 (CBlockIndex.regular 16 0 4000 0x1e0ffff0)
            (CBlockIndex.regular 3 0 4000 0x1e0ffff0) _ _ _ _ _ _ _ _ _ _ _ _))));
    first [by_computation | left; by_computation].
Defined.

(** With times that are far apart the average does not fit an [int]: the
    value that is limited is the wrapped one, not the value of the formula. *)
Lemma long_window_damping_wraps :
  nForkTwo fork_two_params <= nextHeight late_tip_chain /\
  nInterval fork_two_params (nextHeight late_tip_chain) = Ok 4 /\
  Z.rem (nextHeight late_tip_chain) 4 = 0 /\
  fPowNoRetargeting fork_two_params = false /\
  CBlockIndex.GetAncestor late_tip_chain (nHeight late_tip_chain - (4 - 1))
    = Some (CBlockIndex.regular 16 0 0 0x1e0ffff0) /\
  CBlockIndex.walk (Z.to_nat (4 * 4)) (Some late_tip_chain)
    = Some (CBlockIndex.regular 3 0 0 0x1e0ffff0) /\
  ((4000000000 - 0 + (4000000000 - 0) ÷ 4) ÷ 2 + 3 * 18900) ÷ 4 = 625014175 /\
  measured_timespan late_tip_chain (CBlockIndex.regular 16 0 0 0x1e0ffff0)
    fork_two_params (nextHeight late_tip_chain) 18900 4 = Ok (-448727649) /\
  GetNextWorkRequired (Some late_tip_chain) (candidate 4000000000) fork_two_params
    = Retarget fork_two_params (nBits late_tip_chain)
        (limit_timespan fork_two_params (nextHeight late_tip_chain) 18900 (-448727649))
        18900 /\
  GetNextWorkRequired (Some late_tip_chain) (candidate 4000000000) fork_two_params
    <> Retarget fork_two_params (nBits late_tip_chain)
         (limit_timespan fork_two_params (nextHeight late_tip_chain) 18900 625014175)
         18900.
Proof. by_computation. Qed.

Lemma compact_value_range nCompact : uint256_range (compact_value nCompact).
Proof.
  unfold compact_value, SetCompact. cbv zeta. cbn [fst].
  change 0x007fffff with (Z.ones 23). rewrite Z.land_ones by lia.
  pose proof (Z.mod_pos_bound nCompact (2 ^ 23) ltac:(lia)) as Hw.
  destruct (Z.leb_spec (Z.shiftr nCompact 24) 3) as [Hs | Hs].
  - rewrite Z.shiftr_div_pow2 by lia.
    assert (Hp : 0 < 2 ^ (8 * (3 - Z.shiftr nCompact 24)))
      by (apply Z.pow_pos_nonneg; lia).
    generalize dependent (2 ^ (8 * (3 - Z.shiftr nCompact 24))). intros d Hd.
    generalize dependent (nCompact mod 2 ^ 23). intros w Hw.
    unfold uint256_range. split; [apply Z.div_pos; lia |].
    assert (w / d <= w) by (apply Z.div_le_upper_bound; nia). lia.
  - unfold shl. apply u256_range.
Qed.

Lemma Retarget_mod_2_256 params nBits a T :
  uint32_range a -> 0 < T -> int_range T ->
  Retarget params nBits a T =
    Ok (GetCompact (rescale_mod_2_256 (compact_value nBits)
                      (UintToArith256 (powLimit params)) a T)).
Proof.
  intros Ha HT HTr.
  pose proof (compact_value_range nBits) as Hold.
  pose proof (UintToArith256_range (powLimit params)) as HL.
  unfold Retarget, rescale_mod_2_256.
  set (old := compact_value nBits) in *.
  set (L := UintToArith256 (powLimit params)) in *.
  rewrite (u32_id a Ha).
  assert (Hu64 : u64 T = T).
  { unfold u64, unsigned. apply Z.mod_small. unfold int_range in HTr. lia. }
  rewrite Hu64. unfold div.
  destruct (Z.eqb_spec T 0) as [? | _]; [lia |]. cbn [bind].
  unfold shr, shl, mul32, u256, unsigned.
  destruct (Z.eq_dec L 0) as [HL0 | HL0].
  - (* nothing is above a zero limit but zero itself *)
    assert (Hzero : forall x, 0 <= x -> (if x >? L then L else x) = 0).
    { intros x Hx. destruct (Z.gtb_spec x L); lia. }
    assert (Hq : forall y, 0 <= y mod 2 ^ 256 / T).
    { intros y. apply Z.div_pos; [| lia]. apply Z.mod_pos_bound. lia. }
    assert (Hm : forall y, 0 <= y mod 2 ^ 256) by (intros y; apply Z.mod_pos_bound; lia).
    f_equal. f_equal.
    rewrite !Hzero; try reflexivity;
      repeat match goal with |- context [if ?b then _ else _] => destruct b end;
      auto.
  - assert (Hshift : fShift params old = (bits old >? bits L - 1)).
    { unfold fShift. fold L.
      pose proof (bits_pos L ltac:(unfold uint256_range in HL; lia)).
      pose proof (bits_le_256 _ HL).
      rewrite u32_id by (unfold uint32_range; lia). reflexivity. }
    rewrite Hshift. destruct (bits old >? bits L - 1); reflexivity.
Qed.

(** C7: in every retarget the previous target is halved before the
    multiplication and the quotient doubled after the division exactly when
    its bit-length exceeds the bit-length of [powLimit] minus one, and
    otherwise the result is [T * nActualTimespan / nTargetTimespan], in the
    arithmetic of the 256-bit integer: the product and the doubling are
    taken modulo [2^256]. *)
Theorem rescale_shift_guard_mod_2_256 p pblock params n first a0 :
  let h := nextHeight p in
  let T := nTargetTimespan params h in
  let bnOld := compact_value (nBits p) in
  let bnPowLimit := UintToArith256 (powLimit params) in
  let a := limit_timespan params h T a0 in
  nInterval params h = Ok n -> n <> 0 ->
  Z.rem h n = 0 \/ fHardFork params h = true ->
  0 <= i32 (nHeight p - (n - 1)) ->
  CBlockIndex.GetAncestor p (i32 (nHeight p - (n - 1))) = Some first ->
  fPowNoRetargeting params = false ->
  measured_timespan p first params h T n = Ok a0 ->
  (h < nForkOne params -> h < nForkTwo params -> 0 < T < 2 ^ 29) ->
  (0 < bnPowLimit -> fShift params bnOld = (bits bnOld >? bits bnPowLimit - 1)) /\
  GetNextWorkRequired (Some p) pblock params =
    Ok (GetCompact (rescale_mod_2_256 bnOld bnPowLimit a T)).
Proof.
  intros h T bnOld bnPowLimit a Hn Hn0 Hpath Hfirst Hanc Hno Hm Hbase.
  split.
  - intros HL. unfold fShift. fold bnPowLimit.
    pose proof (bits_pos bnPowLimit HL).
    pose proof (bits_le_256 bnPowLimit (UintToArith256_range (powLimit params))).
    rewrite u32_id by (unfold uint32_range; lia). reflexivity.
  - rewrite (GetNextWorkRequired_rescales p pblock params n first a0
               Hn Hn0 Hpath Hfirst Hanc Hno Hm).
    fold h. fold T. fold a.
    pose proof (nTargetTimespan_int_range params h) as HTr. fold T in HTr.
    assert (HTa : 0 < T /\ 0 <= a < 2 ^ 31).
    { unfold a.
      destruct (Z.lt_ge_cases h (nForkTwo params)) as [H2 | H2].
      - destruct (Z.lt_ge_cases h (nForkOne params)) as [H1 | H1].
        + specialize (Hbase H1 H2). split; [lia |].
          assert (Hq : 0 <= T ÷ 4 <= T * 4).
          { rewrite Z.quot_div_nonneg by lia.
            pose proof (Z.div_pos T 4 ltac:(lia) ltac:(lia)).
            pose proof (Z.div_le_upper_bound T 4 T ltac:(lia) ltac:(lia)). lia. }
          pose proof (limit_timespan_between params h T a0 _ _
                        (timespan_limits_base params h T H1 H2 ltac:(lia)) ltac:(lia)).
          lia.
        + assert (HT : T = 75600) by (apply nTargetTimespan_fork_one; lia).
          rewrite HT. split; [lia |].
          pose proof (limit_timespan_between params h 75600 a0 _ _
                        (timespan_limits_fork_one params h ltac:(lia)) ltac:(lia)).
          lia.
      - assert (HT : T = 18900) by (apply nTargetTimespan_fork_two; lia).
        rewrite HT. split; [lia |].
        pose proof (limit_timespan_between params h 18900 a0 _ _
                      (timespan_limits_fork_two params h ltac:(lia)) ltac:(lia)).
        lia. }
    apply Retarget_mod_2_256; [unfold uint32_range; lia | lia | exact HTr].
Qed.

Lemma rescale_shift_guard_mod_2_256_witness :
  GetNextWorkRequired (Some (CBlockIndex.regular 7 0 150 0x1e0ffff0)) (candidate 1200)
    quiet_params =
  Ok (GetCompact (rescale_mod_2_256 (compact_value 0x1e0ffff0)
                    (UintToArith256 (powLimit quiet_params)) 450 600)).
Proof.
  refine (proj2 (rescale_shift_guard_mod_2_256
                   (CBlockIndex.regular 7 0 150 0x1e0ffff0) (candidate 1200) quiet_params 4
                   (CBlockIndex.regular 4 0 150 0x1e0ffff0) 450 _ _ _ _ _ _ _ _));
    first [by_computation | left; by_computation | intros _ _; by_computation].
Defined.

(** Where the product does not fit 256 bits the result is not the one of
    the unbounded arithmetic: no shift, and [T * 2400] wraps. *)
Lemma rescale_wraps_at_256_bits :
  Z.rem (nextHeight (CBlockIndex.regular 7 0 800 0x2000ffff)) 4 = 0 /\
  bits (compact_value 0x2000ffff) <= bits (UintToArith256 (powLimit wide_params)) - 1 /\
  measured_timespan (CBlockIndex.regular 7 0 800 0x2000ffff)
    (CBlockIndex.regular 4 0 800 0x2000ffff) wide_params 8 600 4 = Ok 2400 /\
  limit_timespan wide_params 8 600 2400 = 2400 /\
  compact_value 0x2000ffff * 2400 / 600 <= UintToArith256 (powLimit wide_params) /\
  GetCompact (compact_value 0x2000ffff * 2400 / 600) = 0x2003fffc /\
  GetCompact (spec_rescale (compact_value 0x2000ffff)
                (UintToArith256 (powLimit wide_params)) 2400 600) = 0x2003fffc /\
  GetNextWorkRequired (Some (CBlockIndex.regular 7 0 800 0x2000ffff)) (candidate 6400)
    wide_params = Ok 0x1f28f1c2.
Proof. by_computation. Qed.
